(** * find_min_max: divide-and-conquer minimum / maximum (test-3/tsk1.py)

    A shallow embedding of the recursive [find_min_max(arr, low, high)] of
    [test-3/tsk1.py] and the properties its specification states about it.

    Python integers are unbounded, so indices and elements are [Z].  A Python
    list is a [list Z]; subscripting follows Python: a negative index counts
    from the end, anything outside [-len, len-1] raises [IndexError].  The
    interpreter's bounded call stack is the [fuel] argument: one unit per
    active frame of [find_min_max], and [RecursionError] when none is left.
    Only the frames of [find_min_max] are counted; what an interpreter
    charges to its recursion limit besides them (builtin calls, comparisons)
    is not modelled, so a depth named below is a number of nested calls of
    [find_min_max].

    The function is embedded in a small error-and-trace monad.  The trace
    does not exist in the source: it records what the source does (each
    element comparison, each subscript), so that statements about the number
    of comparisons and about the indices touched are statements about the
    embedded code and not about a separate cost function. *)

From Stdlib Require Import ZArith List Lia Bool Arith Permutation.
Import ListNotations.

Local Open Scope Z_scope.

(** ** Exceptions *)

(** [IndexError] and [RecursionError] are the two exceptions the source can
    raise.  [InvalidRangeError] and [EmptySequenceError] are the names the
    specification uses for its validation failures; no definition below
    ever produces them, because the source has no [raise] statement. *)
Inductive exn : Type :=
| IndexError
| RecursionError
| InvalidRangeError
| EmptySequenceError.

(** ** Instrumentation trace *)

Record trace : Type := mkTrace {
  cmps : nat;          (* element comparisons performed so far *)
  reads : list Z       (* indices subscripted so far, oldest first *)
}.

Definition t0 : trace := mkTrace 0 [].

Definition tick (t : trace) : trace := mkTrace (S (cmps t)) (reads t).
Definition log_read (i : Z) (t : trace) : trace :=
  mkTrace (cmps t) (reads t ++ [i]).

(** ** The monad *)

Module Py.

Definition M (A : Type) : Type := trace -> exn + (A * trace).

Definition ret {A} (a : A) : M A := fun t => inr (a, t).

Definition raise {A} (e : exn) : M A := fun _ => inl e.

Definition bind {A B} (m : M A) (k : A -> M B) : M B :=
  fun t => match m t with
           | inl e => inl e
           | inr (a, t') => k a t'
           end.

End Py.

Notation "x <- m ;; k" := (Py.bind m (fun x => k))
  (at level 61, m at next level, right associativity).
Notation "' pat <- m ;; k" := (Py.bind m (fun x => match x with pat => k end))
  (at level 61, pat pattern, m at next level, right associativity).

(** ** Python primitives used by the source *)

(** [arr[i]] as a pure partial function: Python's index normalisation. *)
Definition py_index (arr : list Z) (i : Z) : option Z :=
  let n := Z.of_nat (length arr) in
  let j := if i <? 0 then i + n else i in
  if (0 <=? j) && (j <? n) then nth_error arr (Z.to_nat j) else None.

(** [arr[i]]: the subscript, logged. *)
Definition getitem (arr : list Z) (i : Z) : Py.M Z :=
  fun t => match py_index arr i with
           | Some x => inr (x, log_read i t)
           | None => inl IndexError
           end.

(** [a < b] on elements: one comparison. *)
Definition lt (a b : Z) : Py.M bool :=
  fun t => inr (a <? b, tick t).

(** [min(a, b)]: the builtin keeps its first argument unless the second is
    strictly smaller; one comparison. *)
Definition py_min (a b : Z) : Py.M Z :=
  fun t => inr (if b <? a then b else a, tick t).

(** [max(a, b)]: the builtin keeps its first argument unless the second is
    strictly larger; one comparison. *)
Definition py_max (a b : Z) : Py.M Z :=
  fun t => inr (if b >? a then b else a, tick t).

(** [(low + high) // 2]: floor division. *)
Definition mid_of (low high : Z) : Z := (low + high) / 2.

(** ** The function *)

(** [find_min_max] of test-3/tsk1.py, line for line.  [fuel] is the number
    of frames the call stack still allows. *)
Fixpoint find_min_max (fuel : nat) (arr : list Z) (low high : Z)
  : Py.M (Z * Z) :=
  match fuel with
  | O => Py.raise RecursionError
  | S fuel' =>
      if low =? high then
        a <- getitem arr low ;;
        b <- getitem arr low ;;
        Py.ret (a, b)
      else if high =? low + 1 then
        a <- getitem arr low ;;
        b <- getitem arr high ;;
        c <- lt a b ;;
        if c then
          x <- getitem arr low ;;
          y <- getitem arr high ;;
          Py.ret (x, y)
        else
          x <- getitem arr high ;;
          y <- getitem arr low ;;
          Py.ret (x, y)
      else
        let mid := mid_of low high in
        '(left_min, left_max) <- find_min_max fuel' arr low mid ;;
        '(right_min, right_max) <- find_min_max fuel' arr (mid + 1) high ;;
        mn <- py_min left_min right_min ;;
        mx <- py_max left_max right_max ;;
        Py.ret (mn, mx)
  end.

(** Running a call from the empty trace. *)
Definition run (fuel : nat) (arr : list Z) (low high : Z)
  : exn + ((Z * Z) * trace) :=
  find_min_max fuel arr low high t0.

(** The value of a call, trace dropped. *)
Definition value_of {A} (r : exn + (A * trace)) : exn + A :=
  match r with
  | inl e => inl e
  | inr (a, _) => inr a
  end.

Definition call (fuel : nat) (arr : list Z) (low high : Z) : exn + (Z * Z) :=
  value_of (run fuel arr low high).

(** The array of the script's test code and Python's default recursion
    limit. *)
Definition arr12 : list Z := [23; 1; 45; 12; 7; 89; 34; 2; 56; 78; 10; 5].
Definition recursion_limit : nat := 1000.

(** ** Vocabulary of the specification *)

(** A valid inclusive range: [0 <= low <= high <= length - 1]. *)
Definition valid_range (arr : list Z) (low high : Z) : Prop :=
  0 <= low /\ low <= high /\ high <= Z.of_nat (length arr) - 1.

(** The ranges on which every subscript of the source succeeds: Python also
    accepts the negative indices [-length .. -1]. *)
Definition readable_range (arr : list Z) (low high : Z) : Prop :=
  - Z.of_nat (length arr) <= low /\ low <= high /\
  high <= Z.of_nat (length arr) - 1.

(** Number of elements of the inclusive range. *)
Definition range_size (low high : Z) : Z := high - low + 1.

(** Frames a call on [low..high] needs: [max 1 (ceil (log2 n))]. *)
Definition depth_needed (low high : Z) : nat :=
  Nat.max 1 (Z.to_nat (Z.log2_up (range_size low high))).

(** [arr[low : high + 1]] for a non-negative [low]. *)
Definition slice (arr : list Z) (low high : Z) : list Z :=
  firstn (Z.to_nat (high + 1 - low)) (skipn (Z.to_nat low) arr).

(** The linear-scan reference the specification compares with: one pass
    keeping the running minimum and the running maximum, started on the
    first element. *)
Definition scan_step : Z * Z -> Z -> Z * Z :=
  fun '(mn, mx) y => (Z.min mn y, Z.max mx y).

Definition linear_min_max (l : list Z) : option (Z * Z) :=
  match l with
  | [] => None
  | x :: xs => Some (fold_left scan_step xs (x, x))
  end.

(** Comparisons of the naive scan that tracks both extrema independently. *)
Definition naive_comparisons (n : Z) : Z := 2 * n - 2.

(** What holds of the number [c] of comparisons spent on [n] elements:
    at least [3n/2 - 2], nothing on one element, at most [5n/3 - 2] from two
    elements on, and [3n/2 - 2] exactly when [n] is a power of two. *)
Definition count_ok (n c : Z) : Prop :=
  3 * n - 4 <= 2 * c /\
  (n = 1 -> c = 0) /\
  (2 <= n -> 3 * c <= 5 * n - 6) /\
  (forall k, 0 <= k -> n = 2 ^ (k + 1) -> 2 * c = 3 * n - 4).

(** Trace left by the two-element base case when [arr[low] < arr[high]]
    evaluated to [c]. *)
Definition two_trace (low high : Z) (c : bool) (t : trace) : trace :=
  let t' := tick (log_read high (log_read low t)) in
  if c then log_read high (log_read low t')
  else log_read low (log_read high t').

(** ** Further vocabulary: the caller, Python ranges, exact cost *)

(** The call of the script, [find_min_max(arr, 0, len(arr) - 1)], for any
    list in place of the script's literal. *)
Definition script_call (fuel : nat) (arr : list Z) : exn + (Z * Z) :=
  call fuel arr 0 (Z.of_nat (length arr) - 1).

(** [n] consecutive integers from [start]: Python's
    [range(start, start + n)]. *)
Fixpoint py_range (start : Z) (n : nat) : list Z :=
  match n with
  | O => []
  | S n' => start :: py_range (start + 1) n'
  end.

(** [[arr[i] for i in range(low, high + 1)]] with Python's subscripts, for a
    range all of whose subscripts are readable (an unreadable one
    contributes nothing). *)
Definition py_elems (arr : list Z) (low high : Z) : list Z :=
  flat_map (fun i => match py_index arr i with
                     | Some x => [x]
                     | None => []
                     end)
           (py_range low (Z.to_nat (high + 1 - low))).

(** Closed form of the number of comparisons on [n] elements: with
    [p = 2 ^ (floor (log2 n) - 1)], so that [2p <= n < 4p], the count is
    [2n - 2 - p] up to [n = 3p] and [n + 2p - 2] from there on. *)
Definition cost (n : Z) : Z :=
  if n <=? 1 then 0
  else let p := 2 ^ (Z.log2 n - 1) in
       Z.min (2 * n - 2 - p) (n + 2 * p - 2).

(** The same as a relation that an induction on the runs can carry. *)
Definition exact_count (n c : Z) : Prop :=
  (n = 1 -> c = 0) /\
  (forall j, 0 <= j -> 2 * 2 ^ j <= n <= 4 * 2 ^ j ->
             c = Z.min (2 * n - 2 - 2 ^ j) (n + 2 * 2 ^ j - 2)).

(** * Properties *)

(** The checks of the script and of the specification's examples. *)
Example test_code : call recursion_limit arr12 0 11 = inr (1, 89).
Proof. vm_compute. reflexivity. Qed.

Example test_subrange : call recursion_limit arr12 2 5 = inr (7, 89).
Proof. vm_compute. reflexivity. Qed.

Example test_duplicates : call recursion_limit [4; 4; 4] 0 2 = inr (4, 4).
Proof. vm_compute. reflexivity. Qed.

(** ** Arithmetic of the split and of the stack depth *)

Lemma mid_of_spec (low high : Z) :
  2 * mid_of low high <= low + high < 2 * mid_of low high + 2.
Proof.
  unfold mid_of.
  pose proof (Z.div_mod (low + high) 2 ltac:(lia)) as E.
  pose proof (Z.mod_pos_bound (low + high) 2 ltac:(lia)) as B.
  lia.
Qed.

Lemma pow2_succ (f : nat) : 2 ^ Z.of_nat (S f) = 2 * 2 ^ Z.of_nat f.
Proof. rewrite Nat2Z.inj_succ, Z.pow_succ_r by lia. reflexivity. Qed.

Lemma pow2_plus1 (k : Z) : 0 <= k -> 2 ^ (k + 1) = 2 * 2 ^ k.
Proof. intros Hk. now rewrite Z.add_1_r, Z.pow_succ_r. Qed.

Lemma pow2_pos (f : nat) : 0 < 2 ^ Z.of_nat f.
Proof. apply Z.pow_pos_nonneg; lia. Qed.

(** [fuel] frames are enough for a range of [n >= 1] elements exactly when
    [fuel >= 1] and [n <= 2 ^ fuel]. *)
Lemma depth_needed_le (low high : Z) (fuel : nat) :
  low <= high ->
  (depth_needed low high <= fuel)%nat <->
  (0 < fuel)%nat /\ range_size low high <= 2 ^ Z.of_nat fuel.
Proof.
  intros Hlh. unfold depth_needed, range_size.
  assert (Hn : 0 < high - low + 1) by lia.
  pose proof (Z.log2_up_nonneg (high - low + 1)) as Hl.
  rewrite (Z.log2_up_le_pow2 (high - low + 1) (Z.of_nat fuel) Hn).
  lia.
Qed.

Lemma depth_needed_gt (low high : Z) (fuel : nat) :
  low <= high ->
  (fuel < depth_needed low high)%nat ->
  fuel = 0%nat \/ 2 ^ Z.of_nat fuel < range_size low high.
Proof.
  intros Hle Hlt.
  destruct fuel as [|f]; [now left | right].
  destruct (Z_lt_le_dec (2 ^ Z.of_nat (S f)) (range_size low high))
    as [Hs|Hs]; [assumption|].
  assert (depth_needed low high <= S f)%nat
    by (apply depth_needed_le; [assumption | split; [lia | assumption]]).
  lia.
Qed.

(** ** Subscripts *)

Lemma py_index_readable (arr : list Z) (i : Z) :
  - Z.of_nat (length arr) <= i <= Z.of_nat (length arr) - 1 ->
  exists x, py_index arr i = Some x.
Proof.
  intros Hi. unfold py_index.
  set (n := Z.of_nat (length arr)) in *.
  set (j := if i <? 0 then i + n else i).
  assert (Hj : 0 <= j < n).
  { subst j. destruct (Z.ltb_spec i 0); lia. }
  replace ((0 <=? j) && (j <? n))%bool with true
    by (symmetry; apply andb_true_iff; split;
        [apply Z.leb_le | apply Z.ltb_lt]; lia).
  destruct (nth_error arr (Z.to_nat j)) eqn:E; [eauto|].
  apply nth_error_None in E. lia.
Qed.

Lemma py_index_unreadable (arr : list Z) (i : Z) :
  i < - Z.of_nat (length arr) \/ Z.of_nat (length arr) <= i ->
  py_index arr i = None.
Proof.
  intros Hi. unfold py_index.
  set (n := Z.of_nat (length arr)) in *.
  assert (0 <= n) by (subst n; lia).
  destruct (Z.ltb_spec i 0).
  - destruct (Z.leb_spec 0 (i + n)); [lia | reflexivity].
  - destruct (Z.ltb_spec i n); [lia|].
    now rewrite andb_false_r.
Qed.

Lemma py_index_nonneg (arr : list Z) (i x : Z) :
  0 <= i -> py_index arr i = Some x -> nth_error arr (Z.to_nat i) = Some x.
Proof.
  unfold py_index. intros Hi.
  destruct (Z.ltb_spec i 0); [lia|].
  destruct ((0 <=? i) && (i <? Z.of_nat (length arr)))%bool; congruence.
Qed.

Lemma getitem_some (arr : list Z) (i x : Z) (t : trace) :
  py_index arr i = Some x -> getitem arr i t = inr (x, log_read i t).
Proof. unfold getitem. now intros ->. Qed.

Lemma getitem_none (arr : list Z) (i : Z) (t : trace) :
  py_index arr i = None -> getitem arr i t = inl IndexError.
Proof. unfold getitem. now intros ->. Qed.

(** ** Unfolding the three cases *)

Section Cases.

Variable arr : list Z.

Lemma find_min_max_one (fuel : nat) (low x : Z) (t : trace) :
  py_index arr low = Some x ->
  find_min_max (S fuel) arr low low t
  = inr ((x, x), log_read low (log_read low t)).
Proof.
  intros Hx. simpl. rewrite Z.eqb_refl. unfold Py.bind, Py.ret.
  now rewrite !(getitem_some _ _ _ _ Hx).
Qed.

Lemma find_min_max_two (fuel : nat) (low a b : Z) (t : trace) :
  py_index arr low = Some a ->
  py_index arr (low + 1) = Some b ->
  find_min_max (S fuel) arr low (low + 1) t
  = inr (if a <? b then (a, b) else (b, a),
         two_trace low (low + 1) (a <? b) t).
Proof.
  intros Ha Hb. simpl.
  replace (low =? low + 1) with false by (symmetry; apply Z.eqb_neq; lia).
  rewrite Z.eqb_refl. unfold Py.bind, Py.ret, lt, two_trace.
  rewrite (getitem_some _ _ _ _ Ha), (getitem_some _ _ _ _ Hb).
  destruct (a <? b).
  - now rewrite (getitem_some _ _ _ _ Ha), (getitem_some _ _ _ _ Hb).
  - now rewrite (getitem_some _ _ _ _ Hb), (getitem_some _ _ _ _ Ha).
Qed.

Lemma find_min_max_rec (fuel : nat) (low high : Z) :
  low <> high -> high <> low + 1 ->
  find_min_max (S fuel) arr low high
  = ('(left_min, left_max) <-
       find_min_max fuel arr low (mid_of low high) ;;
     '(right_min, right_max) <-
       find_min_max fuel arr (mid_of low high + 1) high ;;
     mn <- py_min left_min right_min ;;
     mx <- py_max left_max right_max ;;
     Py.ret (mn, mx)).
Proof.
  intros H1 H2. simpl.
  apply Z.eqb_neq in H1, H2. now rewrite H1, H2.
Qed.

(** What the recursive case returns once both halves have returned. *)
Lemma find_min_max_combine (fuel : nat) (low high : Z) (t t1 t2 : trace)
      (lmn lmx rmn rmx : Z) :
  low <> high -> high <> low + 1 ->
  find_min_max fuel arr low (mid_of low high) t = inr ((lmn, lmx), t1) ->
  find_min_max fuel arr (mid_of low high + 1) high t1
  = inr ((rmn, rmx), t2) ->
  find_min_max (S fuel) arr low high t
  = inr ((Z.min lmn rmn, Z.max lmx rmx), tick (tick t2)).
Proof.
  intros H1 H2 Hl Hr. rewrite find_min_max_rec by assumption.
  unfold Py.bind, Py.ret, py_min, py_max. rewrite Hl, Hr.
  do 3 f_equal.
  - destruct (Z.ltb_spec rmn lmn); lia.
  - rewrite Z.gtb_ltb. destruct (Z.ltb_spec lmx rmx); lia.
Qed.

End Cases.

(** ** Induction over the successful runs *)

Section RunInduction.

Variable arr : list Z.
Variable P : Z -> Z -> trace -> Z * Z -> trace -> Prop.

Hypothesis P_one : forall low x t,
  py_index arr low = Some x ->
  P low low t (x, x) (log_read low (log_read low t)).

Hypothesis P_two : forall low a b t,
  py_index arr low = Some a ->
  py_index arr (low + 1) = Some b ->
  P low (low + 1) t (if a <? b then (a, b) else (b, a))
    (two_trace low (low + 1) (a <? b) t).

Hypothesis P_rec : forall low high t t1 t2 lmn lmx rmn rmx,
  low + 1 < high ->
  P low (mid_of low high) t (lmn, lmx) t1 ->
  P (mid_of low high + 1) high t1 (rmn, rmx) t2 ->
  P low high t (Z.min lmn rmn, Z.max lmx rmx) (tick (tick t2)).

(** On a readable range, with [2 ^ fuel] at least the number of elements
    and one frame at least, the call returns, and [P] holds of it. *)
Lemma find_min_max_run_ind (fuel : nat) :
  forall low high t,
    readable_range arr low high ->
    (0 < fuel)%nat ->
    range_size low high <= 2 ^ Z.of_nat fuel ->
    exists v t',
      find_min_max fuel arr low high t = inr (v, t') /\ P low high t v t'.
Proof.
  unfold readable_range, range_size.
  induction fuel as [|f IH]; intros low high t (Hlo & Hlh & Hhi) Hf Hn;
    [lia|].
  destruct (Z.eq_dec low high) as [->|Hne].
  { destruct (py_index_readable arr high ltac:(lia)) as [x Hx].
    exists (x, x), (log_read high (log_read high t)).
    split; [now apply find_min_max_one | now apply P_one]. }
  destruct (Z.eq_dec high (low + 1)) as [->|Hne2].
  { destruct (py_index_readable arr low ltac:(lia)) as [a Ha].
    destruct (py_index_readable arr (low + 1) ltac:(lia)) as [b Hb].
    eexists _, _.
    split; [apply (find_min_max_two arr f low a b t Ha Hb) | now apply P_two]. }
  pose proof (mid_of_spec low high) as Hm.
  rewrite pow2_succ in Hn.
  assert (Hf' : (0 < f)%nat).
  { destruct f; [change (2 ^ Z.of_nat 0) with 1 in Hn; lia | lia]. }
  destruct (IH low (mid_of low high) t ltac:(lia) Hf' ltac:(lia))
    as ([lmn lmx] & t1 & E1 & P1).
  destruct (IH (mid_of low high + 1) high t1 ltac:(lia) Hf' ltac:(lia))
    as ([rmn rmx] & t2 & E2 & P2).
  exists (Z.min lmn rmn, Z.max lmx rmx), (tick (tick t2)).
  split.
  - eapply find_min_max_combine; eassumption.
  - eapply P_rec; [lia | eassumption | eassumption].
Qed.

End RunInduction.

(** ** Slices *)

Lemma skipn_nth_error (l : list Z) (n : nat) (x : Z) :
  nth_error l n = Some x -> skipn n l = x :: skipn (S n) l.
Proof.
  revert l; induction n as [|n IH]; intros [|y l] H; simpl in H; try discriminate.
  - now injection H as ->.
  - rewrite skipn_cons, (IH l H). reflexivity.
Qed.

Lemma firstn_plus (a b : nat) (l : list Z) :
  firstn (a + b) l = firstn a l ++ firstn b (skipn a l).
Proof.
  revert l; induction a as [|a IH]; intros [|y l]; simpl; try reflexivity.
  - now rewrite firstn_nil.
  - now rewrite IH.
Qed.

Lemma slice_one (arr : list Z) (low x : Z) :
  0 <= low -> py_index arr low = Some x -> slice arr low low = [x].
Proof.
  intros Hlow Hx. apply py_index_nonneg in Hx; [|assumption].
  unfold slice. replace (Z.to_nat (low + 1 - low)) with 1%nat by lia.
  rewrite (skipn_nth_error _ _ _ Hx). reflexivity.
Qed.

Lemma slice_app (arr : list Z) (low mid high : Z) :
  0 <= low -> low <= mid -> mid <= high ->
  slice arr low high = slice arr low mid ++ slice arr (mid + 1) high.
Proof.
  intros H0 H1 H2. unfold slice.
  replace (Z.to_nat (high + 1 - low))
    with (Z.to_nat (mid + 1 - low) + Z.to_nat (high + 1 - (mid + 1)))%nat
    by lia.
  rewrite firstn_plus, skipn_skipn.
  do 3 f_equal. lia.
Qed.

Lemma slice_two (arr : list Z) (low a b : Z) :
  0 <= low ->
  py_index arr low = Some a -> py_index arr (low + 1) = Some b ->
  slice arr low (low + 1) = [a; b].
Proof.
  intros H0 Ha Hb.
  rewrite (slice_app arr low low (low + 1)) by lia.
  rewrite (slice_one _ _ _ H0 Ha), (slice_one arr (low + 1) b ltac:(lia) Hb).
  reflexivity.
Qed.

(** Membership in a slice is being the element at some index of the range. *)
Lemma slice_In (arr : list Z) (low high x : Z) :
  0 <= low ->
  In x (slice arr low high) ->
  exists i, low <= i <= high /\ nth_error arr (Z.to_nat i) = Some x.
Proof.
  intros H0 Hin. unfold slice in Hin.
  apply In_nth_error in Hin as [k Hk].
  assert (Hlt : (k < Z.to_nat (high + 1 - low))%nat).
  { assert (Hs : nth_error (firstn (Z.to_nat (high + 1 - low))
                              (skipn (Z.to_nat low) arr)) k <> None)
      by congruence.
    apply nth_error_Some in Hs. rewrite length_firstn in Hs. lia. }
  rewrite nth_error_firstn in Hk.
  apply Nat.ltb_lt in Hlt. rewrite Hlt in Hk.
  apply Nat.ltb_lt in Hlt.
  rewrite nth_error_skipn in Hk.
  exists (low + Z.of_nat k). split; [lia|].
  now replace (Z.to_nat (low + Z.of_nat k)) with (Z.to_nat low + k)%nat by lia.
Qed.

(** ** The linear-scan reference *)

Lemma scan_fold (xs : list Z) (a b : Z) :
  fold_left scan_step xs (a, b)
  = (fold_left Z.min xs a, fold_left Z.max xs b).
Proof.
  revert a b; induction xs as [|y xs IH]; intros a b; simpl;
    [reflexivity | apply IH].
Qed.

Lemma fold_min_init (xs : list Z) (m y : Z) :
  fold_left Z.min xs (Z.min m y) = Z.min m (fold_left Z.min xs y).
Proof.
  revert m y; induction xs as [|z xs IH]; intros m y; simpl; [reflexivity|].
  rewrite <- Z.min_assoc. apply IH.
Qed.

Lemma fold_max_init (xs : list Z) (m y : Z) :
  fold_left Z.max xs (Z.max m y) = Z.max m (fold_left Z.max xs y).
Proof.
  revert m y; induction xs as [|z xs IH]; intros m y; simpl; [reflexivity|].
  rewrite <- Z.max_assoc. apply IH.
Qed.

(** Scanning a concatenation combines the scans of the two parts: the
    combination step of the divide-and-conquer. *)
Lemma linear_min_max_app (l1 l2 : list Z) (mn1 mx1 mn2 mx2 : Z) :
  linear_min_max l1 = Some (mn1, mx1) ->
  linear_min_max l2 = Some (mn2, mx2) ->
  linear_min_max (l1 ++ l2) = Some (Z.min mn1 mn2, Z.max mx1 mx2).
Proof.
  destruct l1 as [|x xs]; [discriminate|].
  destruct l2 as [|y ys]; [discriminate|].
  unfold linear_min_max. simpl app.
  rewrite !scan_fold, !fold_left_app. simpl fold_left.
  intros [= <- <-] [= <- <-].
  now rewrite fold_min_init, fold_max_init.
Qed.

Lemma fold_min_spec (xs : list Z) (a : Z) :
  In (fold_left Z.min xs a) (a :: xs) /\
  Forall (fun x => fold_left Z.min xs a <= x) (a :: xs).
Proof.
  revert a; induction xs as [|y xs IH]; intros a; simpl fold_left.
  - split; [now left | constructor; [lia | constructor]].
  - destruct (IH (Z.min a y)) as [Hin Hall].
    inversion Hall as [|? ? Hhd Htl]; subst.
    split.
    + destruct Hin as [Hin|Hin]; [|right; right; exact Hin].
      rewrite <- Hin. destruct (Z.min_spec a y) as [[_ ->]|[_ ->]];
        [now left | right; now left].
    + constructor; [lia|]. constructor; [lia | exact Htl].
Qed.

Lemma fold_max_spec (xs : list Z) (a : Z) :
  In (fold_left Z.max xs a) (a :: xs) /\
  Forall (fun x => x <= fold_left Z.max xs a) (a :: xs).
Proof.
  revert a; induction xs as [|y xs IH]; intros a; simpl fold_left.
  - split; [now left | constructor; [lia | constructor]].
  - destruct (IH (Z.max a y)) as [Hin Hall].
    inversion Hall as [|? ? Hhd Htl]; subst.
    split.
    + destruct Hin as [Hin|Hin]; [|right; right; exact Hin].
      rewrite <- Hin. destruct (Z.max_spec a y) as [[_ ->]|[_ ->]];
        [right; now left | now left].
    + constructor; [lia|]. constructor; [lia | exact Htl].
Qed.

(** The scan returns the least and the greatest element of its list. *)
Lemma linear_min_max_spec (l : list Z) (mn mx : Z) :
  linear_min_max l = Some (mn, mx) ->
  In mn l /\ In mx l /\ Forall (fun x => mn <= x <= mx) l.
Proof.
  destruct l as [|a xs]; [discriminate|].
  unfold linear_min_max. rewrite scan_fold.
  intros [= <- <-].
  destruct (fold_min_spec xs a) as [I1 F1].
  destruct (fold_max_spec xs a) as [I2 F2].
  repeat split; try assumption.
  rewrite Forall_forall in *. intros x Hx.
  specialize (F1 x Hx). specialize (F2 x Hx). simpl in F1, F2. lia.
Qed.

(** ** The value returned on a valid range *)

Lemma valid_range_readable (arr : list Z) (low high : Z) :
  valid_range arr low high -> readable_range arr low high.
Proof. unfold valid_range, readable_range. lia. Qed.

(** On a valid range, whatever the trace so far and however deep the stack
    beyond what is needed, the call returns what the linear scan of the
    slice returns. *)
Lemma find_min_max_linear (arr : list Z) (low high : Z) (fuel : nat)
      (t : trace) :
  valid_range arr low high ->
  (depth_needed low high <= fuel)%nat ->
  exists v t',
    find_min_max fuel arr low high t = inr (v, t') /\
    linear_min_max (slice arr low high) = Some v.
Proof.
  intros Hv Hd.
  apply depth_needed_le in Hd as [Hf Hn]; [|unfold valid_range in Hv; lia].
  destruct (find_min_max_run_ind arr
              (fun low high _ v _ =>
                 0 <= low -> linear_min_max (slice arr low high) = Some v))
    with (fuel := fuel) (low := low) (high := high) (t := t)
    as (v & t' & E & HP).
  - intros l x _ Hx H0. now rewrite (slice_one _ _ _ H0 Hx).
  - intros l a b _ Ha Hb H0. rewrite (slice_two _ _ _ _ H0 Ha Hb).
    unfold linear_min_max; simpl.
    destruct (Z.ltb_spec a b); do 2 f_equal; lia.
  - intros l h _ _ _ lmn lmx rmn rmx Hlt IH1 IH2 H0.
    pose proof (mid_of_spec l h) as Hm.
    rewrite (slice_app arr l (mid_of l h) h) by lia.
    apply linear_min_max_app; [apply IH1 | apply IH2]; lia.
  - now apply valid_range_readable.
  - assumption.
  - assumption.
  - exists v, t'. split; [exact E | apply HP; unfold valid_range in Hv; lia].
Qed.

Lemma call_linear (arr : list Z) (low high : Z) (fuel : nat) :
  valid_range arr low high ->
  (depth_needed low high <= fuel)%nat ->
  exists v,
    call fuel arr low high = inr v /\
    linear_min_max (slice arr low high) = Some v.
Proof.
  intros Hv Hd.
  destruct (find_min_max_linear arr low high fuel t0 Hv Hd) as (v & t' & E & L).
  exists v. unfold call, run. rewrite E. now split.
Qed.

(** The stack a sub-range needs is no deeper than what the range needs. *)
Lemma depth_needed_sub (low high low' high' : Z) :
  low <= low' -> low' <= high' -> high' <= high ->
  (depth_needed low' high' <= depth_needed low high)%nat.
Proof.
  intros H1 H2 H3. unfold depth_needed, range_size.
  assert (Z.log2_up (high' - low' + 1) <= Z.log2_up (high - low + 1))
    by (apply Z.log2_up_le_mono; lia).
  lia.
Qed.

(** C1.  On a non-empty sequence and a valid inclusive range, with the stack
    the range needs, [find_min_max] returns the pair the linear scan of
    [arr[low..high]] returns; both components occur in that slice, at indices
    of [low .. high], every element of the slice lies between them, the first is at most the second,
    and they coincide on a one-element range. *)
Theorem find_min_max_correct (arr : list Z) (low high : Z) (fuel : nat) :
  arr <> [] ->
  valid_range arr low high ->
  (depth_needed low high <= fuel)%nat ->
  exists mn mx,
    call fuel arr low high = inr (mn, mx) /\
    linear_min_max (slice arr low high) = Some (mn, mx) /\
    In mn (slice arr low high) /\
    In mx (slice arr low high) /\
    (exists i, low <= i <= high /\ nth_error arr (Z.to_nat i) = Some mn) /\
    (exists j, low <= j <= high /\ nth_error arr (Z.to_nat j) = Some mx) /\
    Forall (fun x => mn <= x <= mx) (slice arr low high) /\
    mn <= mx /\
    (low = high -> mn = mx).
Proof.
  intros _ Hv Hd.
  destruct (call_linear arr low high fuel Hv Hd) as ([mn mx] & E & L).
  exists mn, mx.
  destruct (linear_min_max_spec _ _ _ L) as (I1 & I2 & F).
  assert (H0 : 0 <= low) by (unfold valid_range in Hv; lia).
  do 4 (split; [assumption|]).
  split; [now apply slice_In|]. split; [now apply slice_In|].
  split; [assumption|]. split.
  - rewrite Forall_forall in F. specialize (F mn I1). simpl in F. lia.
  - intros ->. destruct Hv as (_ & _ & Hh).
    destruct (py_index_readable arr high ltac:(lia)) as [x Hx].
    rewrite (slice_one _ _ _ H0 Hx) in L. simpl in L. congruence.
Qed.

Lemma find_min_max_correct_witness :
  exists mn mx,
    call recursion_limit arr12 0 11 = inr (mn, mx) /\
    linear_min_max (slice arr12 0 11) = Some (mn, mx) /\
    In mn (slice arr12 0 11) /\
    In mx (slice arr12 0 11) /\
    (exists i, 0 <= i <= 11 /\ nth_error arr12 (Z.to_nat i) = Some mn) /\
    (exists j, 0 <= j <= 11 /\ nth_error arr12 (Z.to_nat j) = Some mx) /\
    Forall (fun x => mn <= x <= mx) (slice arr12 0 11) /\
    mn <= mx /\
    (0 = 11 -> mn = mx).
Proof.
  apply (find_min_max_correct arr12 0 11 recursion_limit).
  - discriminate.
  - unfold valid_range; simpl; lia.
  - apply Nat.leb_le. vm_compute. reflexivity.
Defined.

(** ** The two base cases *)

(** C6.  One-element range: whenever [arr[low]] is a readable subscript and
    the call has a frame, [find_min_max(arr, low, low)] returns
    [(arr[low], arr[low])] without comparing anything; in particular
    [find_min_max([x], 0, 0) = (x, x)]. *)
Theorem find_min_max_single (arr : list Z) (low x : Z) (fuel : nat) :
  (0 < fuel)%nat ->
  py_index arr low = Some x ->
  call fuel arr low low = inr (x, x) /\
  (exists t', run fuel arr low low = inr ((x, x), t') /\ cmps t' = 0%nat) /\
  call fuel [x] 0 0 = inr (x, x).
Proof.
  intros Hf Hx. destruct fuel as [|f]; [lia|].
  unfold call, run.
  rewrite (find_min_max_one arr f low x t0 Hx).
  split; [reflexivity|]. split.
  - eexists; split; reflexivity.
  - now rewrite (find_min_max_one [x] f 0 x t0 eq_refl).
Qed.

Lemma find_min_max_single_witness :
  call recursion_limit arr12 3 3 = inr (12, 12) /\
  (exists t', run recursion_limit arr12 3 3 = inr ((12, 12), t') /\
              cmps t' = 0%nat) /\
  call recursion_limit [12] 0 0 = inr (12, 12).
Proof.
  apply (find_min_max_single arr12 3 12 recursion_limit).
  - unfold recursion_limit; lia.
  - reflexivity.
Defined.

(** C7.  Two-element range: whenever [arr[low]] and [arr[low + 1]] are
    readable and the call has a frame, [find_min_max(arr, low, low + 1)]
    returns (smaller, larger) after exactly one comparison, whichever way
    round the two are stored; [find_min_max([5, 2], 0, 1)] and
    [find_min_max([2, 5], 0, 1)] are both [(2, 5)]. *)
Theorem find_min_max_pair (arr : list Z) (low high a b : Z) (fuel : nat) :
  (0 < fuel)%nat ->
  high = low + 1 ->
  py_index arr low = Some a ->
  py_index arr high = Some b ->
  call fuel arr low high = inr (Z.min a b, Z.max a b) /\
  (exists v t', run fuel arr low high = inr (v, t') /\ cmps t' = 1%nat) /\
  call fuel [5; 2] 0 1 = inr (2, 5) /\
  call fuel [2; 5] 0 1 = inr (2, 5).
Proof.
  intros Hf -> Ha Hb. destruct fuel as [|f]; [lia|].
  unfold call, run.
  rewrite (find_min_max_two arr f low a b t0 Ha Hb).
  split; [|split; [|split; reflexivity]].
  - simpl. destruct (Z.ltb_spec a b); do 2 f_equal; lia.
  - eexists _, _. split; [reflexivity|]. now destruct (a <? b).
Qed.

Lemma find_min_max_pair_witness :
  call recursion_limit arr12 0 1 = inr (Z.min 23 1, Z.max 23 1) /\
  (exists v t', run recursion_limit arr12 0 1 = inr (v, t') /\
                cmps t' = 1%nat) /\
  call recursion_limit [5; 2] 0 1 = inr (2, 5) /\
  call recursion_limit [2; 5] 0 1 = inr (2, 5).
Proof.
  apply (find_min_max_pair arr12 0 1 23 1 recursion_limit).
  - unfold recursion_limit; lia.
  - reflexivity.
  - reflexivity.
  - reflexivity.
Defined.

(** ** The recursive case *)

Lemma valid_range_halves (arr : list Z) (low high : Z) :
  valid_range arr low high ->
  low + 1 < high ->
  valid_range arr low (mid_of low high) /\
  valid_range arr (mid_of low high + 1) high.
Proof.
  unfold valid_range. intros (H0 & H1 & H2) Hlt.
  pose proof (mid_of_spec low high). lia.
Qed.



(** ** Determinism *)

(** C8.  The value returned on a valid range depends on the sequence and the
    range only: two calls with the same arguments return the same pair,
    whatever instrumentation trace each starts from and whatever stack each
    is given beyond what the range needs. *)
Theorem find_min_max_deterministic
        (arr : list Z) (low high : Z) (fuel1 fuel2 : nat) (t1 t2 : trace) :
  valid_range arr low high ->
  (depth_needed low high <= fuel1)%nat ->
  (depth_needed low high <= fuel2)%nat ->
  exists v,
    value_of (find_min_max fuel1 arr low high t1) = inr v /\
    value_of (find_min_max fuel2 arr low high t2) = inr v.
Proof.
  intros Hv H1 H2.
  destruct (find_min_max_linear arr low high fuel1 t1 Hv H1)
    as (v1 & s1 & E1 & L1).
  destruct (find_min_max_linear arr low high fuel2 t2 Hv H2)
    as (v2 & s2 & E2 & L2).
  exists v1. rewrite E1, E2. simpl. split; congruence.
Qed.

Lemma find_min_max_deterministic_witness :
  exists v,
    value_of (find_min_max recursion_limit arr12 2 5 t0) = inr v /\
    value_of (find_min_max 7 arr12 2 5 (mkTrace 3 [0; 1])) = inr v.
Proof.
  apply (find_min_max_deterministic arr12 2 5 recursion_limit 7).
  - unfold valid_range; simpl; lia.
  - apply Nat.leb_le. vm_compute. reflexivity.
  - apply Nat.leb_le. vm_compute. reflexivity.
Defined.

(** ** Failures: what the source does outside its precondition *)

Section Failures.

Variable arr : list Z.

(** An inverted range never reaches a base case: the left half of an
    inverted range is inverted again, and the stack runs out before any
    subscript is evaluated. *)
Lemma inverted_range_recursion_error (fuel : nat) :
  forall low high t,
    high < low -> find_min_max fuel arr low high t = inl RecursionError.
Proof.
  induction fuel as [|f IH]; intros low high t Hlt; [reflexivity|].
  rewrite find_min_max_rec by lia.
  pose proof (mid_of_spec low high) as Hm.
  unfold Py.bind. now rewrite IH by lia.
Qed.

(** With fewer frames than the range needs the stack runs out on the
    leftmost path, again before any subscript is evaluated. *)
Lemma shallow_stack_recursion_error (fuel : nat) :
  forall low high t,
    low <= high ->
    fuel = 0%nat \/ 2 ^ Z.of_nat fuel < range_size low high ->
    find_min_max fuel arr low high t = inl RecursionError.
Proof.
  unfold range_size.
  induction fuel as [|f IH]; intros low high t Hle Hs; [reflexivity|].
  destruct Hs as [Hs|Hs]; [discriminate|].
  rewrite pow2_succ in Hs. pose proof (pow2_pos f) as Hp.
  rewrite find_min_max_rec by lia.
  pose proof (mid_of_spec low high) as Hm.
  unfold Py.bind. rewrite IH; [reflexivity | lia | right; lia].
Qed.

(** A non-inverted range with an index outside [-length .. length-1],
    given the stack it needs, fails on the first unreadable subscript. *)
Lemma out_of_bounds_index_error (fuel : nat) :
  forall low high t,
    low <= high ->
    low < - Z.of_nat (length arr) \/ Z.of_nat (length arr) <= high ->
    (0 < fuel)%nat ->
    range_size low high <= 2 ^ Z.of_nat fuel ->
    find_min_max fuel arr low high t = inl IndexError.
Proof.
  unfold range_size.
  induction fuel as [|f IH]; intros low high t Hle Hout Hf Hn; [lia|].
  destruct (Z.eq_dec low high) as [->|Hne].
  { simpl. rewrite Z.eqb_refl. unfold Py.bind.
    rewrite getitem_none; [reflexivity|].
    apply py_index_unreadable. lia. }
  destruct (Z.eq_dec high (low + 1)) as [->|Hne2].
  { simpl.
    replace (low =? low + 1) with false by (symmetry; apply Z.eqb_neq; lia).
    rewrite Z.eqb_refl. unfold Py.bind.
    destruct (Z_lt_le_dec low (- Z.of_nat (length arr))) as [Hl|Hl];
      [|destruct (Z_le_gt_dec (Z.of_nat (length arr)) low) as [Hu|Hu]].
    - rewrite getitem_none; [reflexivity|].
      apply py_index_unreadable. lia.
    - rewrite getitem_none; [reflexivity|].
      apply py_index_unreadable. lia.
    - destruct (py_index_readable arr low ltac:(lia)) as [a Ha].
      rewrite (getitem_some _ _ _ _ Ha).
      rewrite getitem_none; [reflexivity|].
      apply py_index_unreadable. lia. }
  rewrite find_min_max_rec by assumption.
  pose proof (mid_of_spec low high) as Hm.
  rewrite pow2_succ in Hn.
  assert (Hf' : (0 < f)%nat).
  { destruct f; [change (2 ^ Z.of_nat 0) with 1 in Hn; lia | lia]. }
  unfold Py.bind.
  destruct (Z_lt_le_dec low (- Z.of_nat (length arr))) as [Hl|Hl];
    [now rewrite IH by lia|].
  destruct (Z_le_gt_dec (Z.of_nat (length arr)) (mid_of low high))
    as [Hh|Hh]; [now rewrite IH by lia|].
  destruct (find_min_max_run_ind arr (fun _ _ _ _ _ => True))
    with (fuel := f) (low := low) (high := mid_of low high) (t := t)
    as ([lmn lmx] & t1 & E1 & _);
    try (intros; exact I); try assumption;
    [unfold readable_range; lia | unfold range_size; lia |].
  rewrite E1. now rewrite IH by lia.
Qed.

End Failures.

(** Whatever the arguments, the failure of a call that fails is one of
    Python's own two. *)
Lemma find_min_max_failures (fuel : nat) (arr : list Z) :
  forall low high t e,
    find_min_max fuel arr low high t = inl e ->
    e = RecursionError \/ e = IndexError.
Proof.
  assert (G : forall i t e, getitem arr i t = inl e -> e = IndexError).
  { intros i t e. unfold getitem. destruct (py_index arr i); congruence. }
  induction fuel as [|f IH]; intros low high t e; simpl.
  - unfold Py.raise. intros [= <-]. now left.
  - destruct (low =? high).
    { unfold Py.bind, Py.ret.
      destruct (getitem arr low t) as [e1|[a t1]] eqn:E1;
        [intros [= <-]; right; eauto|].
      destruct (getitem arr low t1) as [e2|[b t2]] eqn:E2;
        [intros [= <-]; right; eauto | discriminate]. }
    destruct (high =? low + 1).
    { unfold Py.bind, Py.ret, lt.
      destruct (getitem arr low t) as [e1|[a t1]] eqn:E1;
        [intros [= <-]; right; eauto|].
      destruct (getitem arr high t1) as [e2|[b t2]] eqn:E2;
        [intros [= <-]; right; eauto|].
      destruct (a <? b).
      - destruct (getitem arr low (tick t2)) as [e3|[x t3]] eqn:E3;
          [intros [= <-]; right; eauto|].
        destruct (getitem arr high t3) as [e4|[y t4]] eqn:E4;
          [intros [= <-]; right; eauto | discriminate].
      - destruct (getitem arr high (tick t2)) as [e3|[x t3]] eqn:E3;
          [intros [= <-]; right; eauto|].
        destruct (getitem arr low t3) as [e4|[y t4]] eqn:E4;
          [intros [= <-]; right; eauto | discriminate]. }
    unfold Py.bind, Py.ret, py_min, py_max.
    destruct (find_min_max f arr low (mid_of low high) t)
      as [e1|[[lmn lmx] t1]] eqn:E1; [intros [= <-]; eauto|].
    destruct (find_min_max f arr (mid_of low high + 1) high t1)
      as [e2|[[rmn rmx] t2]] eqn:E2; [intros [= <-]; eauto | discriminate].
Qed.

(** The outcomes of [call] outside the readable ranges, by stack depth. *)
Lemma call_inverted (arr : list Z) (low high : Z) (fuel : nat) :
  high < low -> call fuel arr low high = inl RecursionError.
Proof.
  intros Hlt. unfold call, run.
  now rewrite (inverted_range_recursion_error arr fuel low high t0 Hlt).
Qed.

Lemma call_shallow (arr : list Z) (low high : Z) (fuel : nat) :
  low <= high ->
  (fuel < depth_needed low high)%nat ->
  call fuel arr low high = inl RecursionError.
Proof.
  intros Hle Hd. unfold call, run.
  rewrite shallow_stack_recursion_error;
    [reflexivity | assumption | now apply depth_needed_gt].
Qed.

Lemma call_unreadable (arr : list Z) (low high : Z) (fuel : nat) :
  low <= high ->
  low < - Z.of_nat (length arr) \/ Z.of_nat (length arr) <= high ->
  (depth_needed low high <= fuel)%nat ->
  call fuel arr low high = inl IndexError.
Proof.
  intros Hle Hout Hd. unfold call, run.
  apply depth_needed_le in Hd as [Hf Hn]; [|assumption].
  now rewrite (out_of_bounds_index_error arr fuel low high t0 Hle Hout Hf Hn).
Qed.

(** C2.  The source validates nothing and never raises [InvalidRangeError]:
    under every stack depth a call on an invalid range ends in one of
    Python's own [RecursionError] and [IndexError], and returns no pair.
    With [low > high] it is [RecursionError] under every stack depth, as for
    [find_min_max(arr, 5, 2)] on the script's array.  With [low <= high] and
    an index outside [-length .. length-1] there is a depth [d] such that
    it is [IndexError] whenever the stack has room for [d] nested calls or
    more, and [RecursionError] whenever it has room for fewer. *)
Theorem find_min_max_unvalidated (arr : list Z) (low high : Z) :
  high < low \/
  low < - Z.of_nat (length arr) \/ Z.of_nat (length arr) <= high ->
  (high < low ->
   forall fuel, call fuel arr low high = inl RecursionError) /\
  (low <= high ->
   exists d, forall fuel,
     ((d <= fuel)%nat -> call fuel arr low high = inl IndexError) /\
     ((fuel < d)%nat -> call fuel arr low high = inl RecursionError)) /\
  (forall fuel,
     call fuel arr low high = inl RecursionError \/
     call fuel arr low high = inl IndexError) /\
  (forall fuel, call fuel arr12 5 2 = inl RecursionError).
Proof.
  intros Hbad.
  split; [intros Hlt fuel; now apply call_inverted|].
  split; [|split].
  - intros Hle. destruct Hbad as [Hbad|Hout]; [lia|].
    exists (depth_needed low high). intros fuel. split; intros Hd.
    + now apply call_unreadable.
    + now apply call_shallow.
  - intros fuel.
    destruct (Z_lt_le_dec high low) as [Hlt|Hle];
      [left; now apply call_inverted|].
    destruct Hbad as [Hbad|Hout]; [lia|].
    destruct (le_lt_dec (depth_needed low high) fuel) as [Hd|Hd].
    + right. now apply call_unreadable.
    + left. now apply call_shallow.
  - intros fuel. apply call_inverted. lia.
Qed.

Lemma find_min_max_unvalidated_witness :
  (5 < 0 ->
   forall fuel, call fuel [1; 2; 3] 0 5 = inl RecursionError) /\
  (0 <= 5 ->
   exists d, forall fuel,
     ((d <= fuel)%nat -> call fuel [1; 2; 3] 0 5 = inl IndexError) /\
     ((fuel < d)%nat -> call fuel [1; 2; 3] 0 5 = inl RecursionError)) /\
  (forall fuel,
     call fuel [1; 2; 3] 0 5 = inl RecursionError \/
     call fuel [1; 2; 3] 0 5 = inl IndexError) /\
  (forall fuel, call fuel arr12 5 2 = inl RecursionError).
Proof.
  apply (find_min_max_unvalidated [1; 2; 3] 0 5).
  right. right. simpl. lia.
Defined.

(** C2, as stated, fails: [find_min_max(arr, 5, 2)] ends in [RecursionError],
    not in [InvalidRangeError]; an index beyond the end ends in
    [IndexError]; and the index [-1], which is outside [0 .. length-1], is
    accepted and a pair is returned. *)
Lemma invalid_range_not_reported :
  call recursion_limit arr12 5 2 = inl RecursionError /\
  call recursion_limit arr12 5 2 <> inl InvalidRangeError /\
  call recursion_limit [1; 2; 3] 0 5 = inl IndexError /\
  call recursion_limit [1; 2; 3] (-1) (-1) = inr (3, 3).
Proof.
  assert (E : call recursion_limit arr12 5 2 = inl RecursionError)
    by (vm_compute; reflexivity).
  split; [exact E|]. split; [rewrite E; discriminate|].
  split; vm_compute; reflexivity.
Qed.

(** C3.  On an empty sequence the source never raises [EmptySequenceError]
    and never returns a pair: under every stack depth the call ends in
    [RecursionError] or [IndexError].  With [low > high], as in
    [find_min_max([], 0, len([]) - 1)], it is [RecursionError] under every
    stack depth; with [low <= high] there is a depth [d] such that it is
    [IndexError] whenever the stack has room for [d] nested calls or more,
    and [RecursionError] whenever it has room for fewer. *)
Theorem find_min_max_empty (arr : list Z) (low high : Z) :
  arr = [] ->
  (high < low ->
   forall fuel, call fuel arr low high = inl RecursionError) /\
  (low <= high ->
   exists d, forall fuel,
     ((d <= fuel)%nat -> call fuel arr low high = inl IndexError) /\
     ((fuel < d)%nat -> call fuel arr low high = inl RecursionError)) /\
  (forall fuel,
     call fuel arr low high = inl RecursionError \/
     call fuel arr low high = inl IndexError).
Proof.
  intros ->.
  assert (Hout : low <= high ->
            low < - Z.of_nat (length (@nil Z)) \/
            Z.of_nat (length (@nil Z)) <= high) by (simpl; lia).
  split; [intros Hlt fuel; now apply call_inverted|]. split.
  - intros Hle. exists (depth_needed low high). intros fuel.
    split; intros Hd.
    + apply call_unreadable; auto.
    + now apply call_shallow.
  - intros fuel.
    destruct (Z_lt_le_dec high low) as [Hlt|Hle];
      [left; now apply call_inverted|].
    destruct (le_lt_dec (depth_needed low high) fuel) as [Hd|Hd].
    + right. apply call_unreadable; auto.
    + left. now apply call_shallow.
Qed.

Lemma find_min_max_empty_witness :
  (2 < 0 ->
   forall fuel, call fuel [] 0 2 = inl RecursionError) /\
  (0 <= 2 ->
   exists d, forall fuel,
     ((d <= fuel)%nat -> call fuel [] 0 2 = inl IndexError) /\
     ((fuel < d)%nat -> call fuel [] 0 2 = inl RecursionError)) /\
  (forall fuel,
     call fuel [] 0 2 = inl RecursionError \/
     call fuel [] 0 2 = inl IndexError).
Proof.
  apply (find_min_max_empty [] 0 2).
  reflexivity.
Defined.

(** C3, as stated, fails: on the empty list the usual call
    [find_min_max([], 0, len([]) - 1)] ends in [RecursionError] and
    [find_min_max([], 0, 0)] in [IndexError]; neither is
    [EmptySequenceError]. *)
Lemma empty_sequence_not_reported :
  call recursion_limit [] 0 (-1) = inl RecursionError /\
  call recursion_limit [] 0 (-1) <> inl EmptySequenceError /\
  call recursion_limit [] 0 0 = inl IndexError /\
  call recursion_limit [] 0 0 <> inl EmptySequenceError.
Proof.
  assert (E1 : call recursion_limit [] 0 (-1) = inl RecursionError)
    by (vm_compute; reflexivity).
  assert (E2 : call recursion_limit [] 0 0 = inl IndexError)
    by (vm_compute; reflexivity).
  rewrite E1, E2. repeat split; discriminate.
Qed.

(** ** Termination and stack depth *)

(** C9.  On a non-empty sequence and a valid range the call returns as soon
    as the stack allows [depth_needed low high] frames, and that depth is
    exact: with fewer frames the call ends in [RecursionError].  The depth is
    at most [log2 n + 1] for a range of [n] elements, and each recursive call
    is on a non-empty, strictly smaller range. *)
Theorem find_min_max_terminates (arr : list Z) (low high : Z) :
  arr <> [] ->
  valid_range arr low high ->
  (forall fuel t, (depth_needed low high <= fuel)%nat ->
     exists v t', find_min_max fuel arr low high t = inr (v, t')) /\
  (forall fuel t, (fuel < depth_needed low high)%nat ->
     find_min_max fuel arr low high t = inl RecursionError) /\
  Z.of_nat (depth_needed low high) <= Z.log2 (range_size low high) + 1 /\
  (low + 1 < high ->
   1 <= range_size low (mid_of low high) < range_size low high /\
   1 <= range_size (mid_of low high + 1) high < range_size low high).
Proof.
  intros _ Hv. split; [|split; [|split]].
  - intros fuel t Hd.
    destruct (find_min_max_linear arr low high fuel t Hv Hd)
      as (v & t' & E & _).
    now exists v, t'.
  - intros fuel t Hd. destruct Hv as (_ & Hle & _).
    apply shallow_stack_recursion_error; [assumption|].
    now apply depth_needed_gt.
  - unfold depth_needed.
    pose proof (Z.le_log2_up_succ_log2 (range_size low high)).
    pose proof (Z.log2_nonneg (range_size low high)).
    lia.
  - intros Hlt. unfold range_size.
    pose proof (mid_of_spec low high). lia.
Qed.

Lemma find_min_max_terminates_witness :
  (forall fuel t, (depth_needed 0 11 <= fuel)%nat ->
     exists v t', find_min_max fuel arr12 0 11 t = inr (v, t')) /\
  (forall fuel t, (fuel < depth_needed 0 11)%nat ->
     find_min_max fuel arr12 0 11 t = inl RecursionError) /\
  Z.of_nat (depth_needed 0 11) <= Z.log2 (range_size 0 11) + 1 /\
  (0 + 1 < 11 ->
   1 <= range_size 0 (mid_of 0 11) < range_size 0 11 /\
   1 <= range_size (mid_of 0 11 + 1) 11 < range_size 0 11).
Proof.
  apply (find_min_max_terminates arr12 0 11).
  - discriminate.
  - unfold valid_range; simpl; lia.
Defined.

(** ** Number of comparisons *)

Lemma count_ok_one : count_ok 1 0.
Proof.
  unfold count_ok. repeat split; try lia.
  intros k Hk E. rewrite pow2_plus1 in E by assumption.
  assert (0 < 2 ^ k) by (apply Z.pow_pos_nonneg; lia). lia.
Qed.

Lemma count_ok_two : count_ok 2 1.
Proof. unfold count_ok. repeat split; lia. Qed.

(** Two halves of sizes [a] and [b], [b <= a <= b + 1], and two more
    comparisons to combine them. *)
Lemma count_ok_combine (a b ca cb : Z) :
  1 <= b -> b <= a <= b + 1 -> 3 <= a + b ->
  count_ok a ca -> count_ok b cb ->
  count_ok (a + b) (ca + cb + 2).
Proof.
  unfold count_ok.
  intros Hb Hab Hn (La & Oa & Ua & Pa) (Lb & Ob & Ub & Pb).
  split; [lia|]. split; [lia|]. split.
  - intros _. destruct (Z.eq_dec b 1) as [Hb1|Hb1].
    + specialize (Ob Hb1). lia.
    + lia.
  - intros k Hk E.
    rewrite pow2_plus1 in E by assumption.
    assert (Hk1 : 1 <= k).
    { destruct (Z.eq_dec k 0) as [Hk0|]; [|lia].
      rewrite Hk0 in E. change (2 ^ 0) with 1 in E. lia. }
    assert (Ea : a = 2 ^ (k - 1 + 1)) by (replace (k - 1 + 1) with k; lia).
    assert (Eb : b = 2 ^ (k - 1 + 1)) by (replace (k - 1 + 1) with k; lia).
    specialize (Pa (k - 1) ltac:(lia) Ea).
    specialize (Pb (k - 1) ltac:(lia) Eb). lia.
Qed.

Lemma find_min_max_count (arr : list Z) (low high : Z) (fuel : nat)
      (t : trace) :
  valid_range arr low high ->
  (depth_needed low high <= fuel)%nat ->
  exists v t' c,
    find_min_max fuel arr low high t = inr (v, t') /\
    cmps t' = (cmps t + c)%nat /\
    count_ok (range_size low high) (Z.of_nat c).
Proof.
  intros Hv Hd.
  apply depth_needed_le in Hd as [Hf Hn]; [|unfold valid_range in Hv; lia].
  destruct (find_min_max_run_ind arr
              (fun low high t _ t' =>
                 exists c, cmps t' = (cmps t + c)%nat /\
                           count_ok (range_size low high) (Z.of_nat c)))
    with (fuel := fuel) (low := low) (high := high) (t := t)
    as (v & t' & E & c & Hc & Hok).
  - intros l x s _. exists 0%nat. split; [simpl; lia|].
    unfold range_size. replace (l - l + 1) with 1 by lia. apply count_ok_one.
  - intros l a b s _ _. exists 1%nat.
    split; [unfold two_trace; destruct (a <? b); simpl; lia|].
    unfold range_size. replace (l + 1 - l + 1) with 2 by lia.
    apply count_ok_two.
  - intros l h s s1 s2 _ _ _ _ Hlt (c1 & E1 & O1) (c2 & E2 & O2).
    exists (c1 + c2 + 2)%nat. split; [simpl; lia|].
    pose proof (mid_of_spec l h) as Hm. unfold range_size in *.
    replace (h - l + 1)
      with ((mid_of l h - l + 1) + (h - (mid_of l h + 1) + 1)) by lia.
    replace (Z.of_nat (c1 + c2 + 2)) with (Z.of_nat c1 + Z.of_nat c2 + 2)
      by lia.
    apply count_ok_combine; try assumption; lia.
  - now apply valid_range_readable.
  - assumption.
  - assumption.
  - now exists v, t', c.
Qed.

(** C4.  On a valid range of [n >= 1] elements the call spends [c]
    comparisons with [3n/2 - 2 <= c <= 2n - 2].  For [n = 1] it spends none,
    as the naive scan with its [2n - 2 = 0]; for [n >= 2] it spends strictly
    fewer than the [2n - 2] of the naive scan, and at most [5n/3 - 2]; and
    [c] is [3n/2 - 2] exactly when [n = 2 ^ k] with [k >= 1]. *)
Theorem find_min_max_comparisons (arr : list Z) (low high : Z) (fuel : nat) :
  valid_range arr low high ->
  (depth_needed low high <= fuel)%nat ->
  exists v t',
    run fuel arr low high = inr (v, t') /\
    let n := range_size low high in
    let c := Z.of_nat (cmps t') in
    1 <= n /\
    c <= naive_comparisons n /\
    (n = 1 -> c = 0 /\ naive_comparisons n = 0) /\
    (2 <= n -> c < naive_comparisons n) /\
    3 * n - 4 <= 2 * c /\
    (2 <= n -> 3 * c <= 5 * n - 6) /\
    (forall k, 1 <= k -> n = 2 ^ k -> 2 * c = 3 * n - 4).
Proof.
  intros Hv Hd.
  destruct (find_min_max_count arr low high fuel t0 Hv Hd)
    as (v & t' & c & E & Hc & (L & O & U & Pw)).
  exists v, t'. split; [exact E|]. cbv zeta.
  simpl in Hc. rewrite Hc. unfold naive_comparisons.
  assert (1 <= range_size low high)
    by (unfold range_size, valid_range in *; lia).
  split; [assumption|]. split; [lia|]. split; [lia|]. split; [lia|].
  split; [assumption|]. split; [assumption|].
  intros k Hk En. apply (Pw (k - 1)); [lia|].
  now replace (k - 1 + 1) with k by lia.
Qed.

Lemma find_min_max_comparisons_witness :
  exists v t',
    run recursion_limit arr12 0 11 = inr (v, t') /\
    let n := range_size 0 11 in
    let c := Z.of_nat (cmps t') in
    1 <= n /\
    c <= naive_comparisons n /\
    (n = 1 -> c = 0 /\ naive_comparisons n = 0) /\
    (2 <= n -> c < naive_comparisons n) /\
    3 * n - 4 <= 2 * c /\
    (2 <= n -> 3 * c <= 5 * n - 6) /\
    (forall k, 1 <= k -> n = 2 ^ k -> 2 * c = 3 * n - 4).
Proof.
  apply (find_min_max_comparisons arr12 0 11 recursion_limit).
  - unfold valid_range; simpl; lia.
  - apply Nat.leb_le. vm_compute. reflexivity.
Defined.

(** C4, as stated, fails twice: six elements (an even number) cost 8
    comparisons, not [3 * 6 / 2 - 2 = 7]; and one element costs 0, which is
    not strictly fewer than the [2 * 1 - 2 = 0] of the naive scan. *)
Lemma comparisons_not_exact_on_even :
  (exists v t',
     run recursion_limit [1; 2; 3; 4; 5; 6] 0 5 = inr (v, t') /\
     range_size 0 5 = 6 /\
     cmps t' = 8%nat /\
     Z.of_nat (cmps t') <> 3 * 6 / 2 - 2) /\
  (exists v t',
     run recursion_limit [7] 0 0 = inr (v, t') /\
     ~ Z.of_nat (cmps t') < naive_comparisons (range_size 0 0)).
Proof.
  split; eexists _, _.
  - split; [vm_compute; reflexivity|]. split; [reflexivity|].
    split; [reflexivity|]. vm_compute. discriminate.
  - split; [vm_compute; reflexivity|]. vm_compute. discriminate.
Qed.

(** ** Indices touched *)

Lemma find_min_max_reads (arr : list Z) (low high : Z) (fuel : nat)
      (t : trace) :
  valid_range arr low high ->
  (depth_needed low high <= fuel)%nat ->
  exists v t' r,
    find_min_max fuel arr low high t = inr (v, t') /\
    reads t' = reads t ++ r /\
    Forall (fun i => low <= i <= high) r.
Proof.
  intros Hv Hd.
  apply depth_needed_le in Hd as [Hf Hn]; [|unfold valid_range in Hv; lia].
  destruct (find_min_max_run_ind arr
              (fun low high t _ t' =>
                 exists r, reads t' = reads t ++ r /\
                           Forall (fun i => low <= i <= high) r))
    with (fuel := fuel) (low := low) (high := high) (t := t)
    as (v & t' & E & r & Hr & Hall).
  - intros l x s _. exists [l; l].
    split; [simpl; now rewrite <- app_assoc|].
    repeat constructor; lia.
  - intros l a b s _ _. unfold two_trace. destruct (a <? b).
    + exists [l; l + 1; l; l + 1].
      split; [simpl; now rewrite <- !app_assoc|].
      repeat constructor; lia.
    + exists [l; l + 1; l + 1; l].
      split; [simpl; now rewrite <- !app_assoc|].
      repeat constructor; lia.
  - intros l h s s1 s2 _ _ _ _ Hlt (r1 & E1 & F1) (r2 & E2 & F2).
    exists (r1 ++ r2).
    split; [simpl; now rewrite E2, E1, app_assoc|].
    pose proof (mid_of_spec l h) as Hm.
    apply Forall_app. split.
    + eapply Forall_impl; [|exact F1]. simpl. intros; lia.
    + eapply Forall_impl; [|exact F2]. simpl. intros; lia.
  - now apply valid_range_readable.
  - assumption.
  - assumption.
  - now exists v, t', r.
Qed.

(** C10.  Under [0 <= low <= high <= length - 1], with the stack the range
    needs, the call returns and every index it subscripted, in all recursive
    calls, lies in [low .. high] and so within the sequence; it does not end
    in [IndexError]; and when the range has more than two elements, both
    sub-ranges handed to the recursive calls are valid ranges again. *)
Theorem find_min_max_in_bounds (arr : list Z) (low high : Z) (fuel : nat) :
  valid_range arr low high ->
  (depth_needed low high <= fuel)%nat ->
  (exists v t',
     run fuel arr low high = inr (v, t') /\
     Forall (fun i => low <= i <= high /\
                      0 <= i <= Z.of_nat (length arr) - 1) (reads t')) /\
  call fuel arr low high <> inl IndexError /\
  (low + 1 < high ->
   valid_range arr low (mid_of low high) /\
   valid_range arr (mid_of low high + 1) high).
Proof.
  intros Hv Hd.
  destruct (find_min_max_reads arr low high fuel t0 Hv Hd)
    as (v & t' & r & E & Hr & Hall).
  simpl in Hr. subst r.
  split; [|split].
  - exists v, t'. split; [exact E|].
    eapply Forall_impl; [|exact Hall].
    unfold valid_range in Hv. simpl. intros; lia.
  - unfold call, run in *. rewrite E. discriminate.
  - now apply valid_range_halves.
Qed.

Lemma find_min_max_in_bounds_witness :
  (exists v t',
     run recursion_limit arr12 2 9 = inr (v, t') /\
     Forall (fun i => 2 <= i <= 9 /\
                      0 <= i <= Z.of_nat (length arr12) - 1) (reads t')) /\
  call recursion_limit arr12 2 9 <> inl IndexError /\
  (2 + 1 < 9 ->
   valid_range arr12 2 (mid_of 2 9) /\
   valid_range arr12 (mid_of 2 9 + 1) 9).
Proof.
  apply (find_min_max_in_bounds arr12 2 9 recursion_limit).
  - unfold valid_range; simpl; lia.
  - apply Nat.leb_le. vm_compute. reflexivity.
Defined.

(** * Further properties of the source *)

(** ** The stack only decides whether [RecursionError] occurs *)



(** ** Negative indices *)

Lemma py_range_app (a b : nat) :
  forall start,
    py_range start (a + b)
    = py_range start a ++ py_range (start + Z.of_nat a) b.
Proof.
  induction a as [|a IH]; intros start.
  - simpl. now rewrite Z.add_0_r.
  - simpl py_range. rewrite IH. simpl. do 3 f_equal. lia.
Qed.

Lemma py_elems_one (arr : list Z) (low x : Z) :
  py_index arr low = Some x -> py_elems arr low low = [x].
Proof.
  intros Hx. unfold py_elems.
  replace (Z.to_nat (low + 1 - low)) with 1%nat by lia.
  simpl. now rewrite Hx.
Qed.

Lemma py_elems_app (arr : list Z) (low mid high : Z) :
  low <= mid -> mid <= high ->
  py_elems arr low high = py_elems arr low mid ++ py_elems arr (mid + 1) high.
Proof.
  intros H1 H2. unfold py_elems.
  replace (Z.to_nat (high + 1 - low))
    with (Z.to_nat (mid + 1 - low) + Z.to_nat (high + 1 - (mid + 1)))%nat
    by lia.
  rewrite py_range_app, flat_map_app.
  do 3 f_equal. lia.
Qed.

Lemma py_elems_length (arr : list Z) (low high : Z) :
  readable_range arr low high ->
  Z.of_nat (length (py_elems arr low high)) = range_size low high.
Proof.
  unfold readable_range, range_size, py_elems. intros (Hlo & Hle & Hhi).
  assert (G : forall n start,
            - Z.of_nat (length arr) <= start ->
            start + Z.of_nat n <= Z.of_nat (length arr) ->
            length (flat_map (fun i => match py_index arr i with
                                       | Some x => [x]
                                       | None => []
                                       end) (py_range start n)) = n).
  { induction n as [|n IH]; intros start Hs He; [reflexivity|].
    simpl py_range. simpl flat_map. rewrite length_app, IH by lia.
    destruct (py_index_readable arr start ltac:(lia)) as [x ->].
    reflexivity. }
  rewrite G by lia. lia.
Qed.

(** On a readable range the call returns what the linear scan of the
    elements at the indices [low .. high] returns, Python's way of counting
    negative indices from the end included. *)
Lemma find_min_max_elems (arr : list Z) (low high : Z) (fuel : nat)
      (t : trace) :
  readable_range arr low high ->
  (depth_needed low high <= fuel)%nat ->
  exists v t',
    find_min_max fuel arr low high t = inr (v, t') /\
    linear_min_max (py_elems arr low high) = Some v.
Proof.
  intros Hr Hd.
  apply depth_needed_le in Hd as [Hf Hn]; [|unfold readable_range in Hr; lia].
  apply (find_min_max_run_ind arr
           (fun low high _ v _ =>
              linear_min_max (py_elems arr low high) = Some v));
    try assumption.
  - intros l x _ Hx. now rewrite (py_elems_one _ _ _ Hx).
  - intros l a b _ Ha Hb.
    rewrite (py_elems_app arr l l (l + 1)) by lia.
    rewrite (py_elems_one _ _ _ Ha), (py_elems_one _ _ _ Hb).
    unfold linear_min_max; simpl.
    destruct (Z.ltb_spec a b); do 2 f_equal; lia.
  - intros l h _ _ _ lmn lmx rmn rmx Hlt IH1 IH2.
    pose proof (mid_of_spec l h) as Hm.
    rewrite (py_elems_app arr l (mid_of l h) h) by lia.
    now apply linear_min_max_app.
Qed.

(** X3.  Negative indices are not rejected: on any range within
    [-length .. length-1], straddling zero or not, the call returns the
    least and the greatest of [[arr[i] for i in range(low, high + 1)]], the
    [high - low + 1] elements Python's subscripts select. *)
Theorem find_min_max_python_indices
        (arr : list Z) (low high : Z) (fuel : nat) :
  readable_range arr low high ->
  (depth_needed low high <= fuel)%nat ->
  exists mn mx,
    call fuel arr low high = inr (mn, mx) /\
    linear_min_max (py_elems arr low high) = Some (mn, mx) /\
    Z.of_nat (length (py_elems arr low high)) = range_size low high /\
    In mn (py_elems arr low high) /\
    In mx (py_elems arr low high) /\
    Forall (fun x => mn <= x <= mx) (py_elems arr low high).
Proof.
  intros Hr Hd.
  destruct (find_min_max_elems arr low high fuel t0 Hr Hd)
    as ([mn mx] & t' & E & L).
  exists mn, mx. unfold call, run. rewrite E.
  destruct (linear_min_max_spec _ _ _ L) as (I1 & I2 & F).
  repeat split; try assumption.
  now apply py_elems_length.
Qed.

Lemma find_min_max_python_indices_witness :
  exists mn mx,
    call recursion_limit arr12 (-2) 1 = inr (mn, mx) /\
    linear_min_max (py_elems arr12 (-2) 1) = Some (mn, mx) /\
    Z.of_nat (length (py_elems arr12 (-2) 1)) = range_size (-2) 1 /\
    In mn (py_elems arr12 (-2) 1) /\
    In mx (py_elems arr12 (-2) 1) /\
    Forall (fun x => mn <= x <= mx) (py_elems arr12 (-2) 1).
Proof.
  apply (find_min_max_python_indices arr12 (-2) 1 recursion_limit).
  - unfold readable_range; simpl; lia.
  - apply Nat.leb_le. vm_compute. reflexivity.
Defined.

Lemma py_index_from_end (arr : list Z) (i : Z) :
  - Z.of_nat (length arr) <= i < 0 ->
  py_index arr (i + Z.of_nat (length arr)) = py_index arr i.
Proof.
  intros Hi. unfold py_index.
  destruct (Z.ltb_spec (i + Z.of_nat (length arr)) 0); [lia|].
  destruct (Z.ltb_spec i 0); [reflexivity | lia].
Qed.

Lemma py_elems_from_end (arr : list Z) (low high : Z) :
  - Z.of_nat (length arr) <= low -> high < 0 ->
  py_elems arr (low + Z.of_nat (length arr)) (high + Z.of_nat (length arr))
  = py_elems arr low high.
Proof.
  intros Hlo Hhi. unfold py_elems.
  replace (high + Z.of_nat (length arr) + 1 - (low + Z.of_nat (length arr)))
    with (high + 1 - low) by lia.
  assert (G : forall n start,
            - Z.of_nat (length arr) <= start ->
            start + Z.of_nat n <= 0 ->
            flat_map (fun i => match py_index arr i with
                               | Some x => [x] | None => [] end)
                     (py_range (start + Z.of_nat (length arr)) n)
            = flat_map (fun i => match py_index arr i with
                                 | Some x => [x] | None => [] end)
                       (py_range start n)).
  { induction n as [|n IH]; intros start Hs He; [reflexivity|].
    simpl py_range. simpl flat_map.
    rewrite py_index_from_end by lia.
    replace (start + Z.of_nat (length arr) + 1)
      with (start + 1 + Z.of_nat (length arr)) by lia.
    now rewrite IH by lia. }
  destruct (Z_le_gt_dec low high) as [Hle|Hgt].
  - apply G; lia.
  - now replace (Z.to_nat (high + 1 - low)) with 0%nat by lia.
Qed.

(** X4.  A range given by from-the-end indices [-length <= low <= high <= -1]
    returns the same pair as the same range given by the indices
    [low + length .. high + length] counted from the start. *)
Theorem find_min_max_from_end
        (arr : list Z) (low high : Z) (fuel : nat) :
  - Z.of_nat (length arr) <= low -> low <= high -> high <= -1 ->
  (depth_needed low high <= fuel)%nat ->
  exists v,
    call fuel arr low high = inr v /\
    call fuel arr (low + Z.of_nat (length arr))
         (high + Z.of_nat (length arr)) = inr v.
Proof.
  intros Hlo Hle Hhi Hd.
  set (n := Z.of_nat (length arr)).
  assert (Hr1 : readable_range arr low high)
    by (unfold readable_range; lia).
  assert (Hr2 : readable_range arr (low + n) (high + n))
    by (unfold readable_range; subst n; lia).
  assert (Hd2 : (depth_needed (low + n) (high + n) <= fuel)%nat).
  { unfold depth_needed, range_size in *.
    now replace (high + n - (low + n)) with (high - low) by lia. }
  destruct (find_min_max_elems arr low high fuel t0 Hr1 Hd)
    as (v1 & t1 & E1 & L1).
  destruct (find_min_max_elems arr _ _ fuel t0 Hr2 Hd2)
    as (v2 & t2 & E2 & L2).
  subst n. rewrite py_elems_from_end in L2 by lia.
  exists v1. unfold call, run. rewrite E1, E2. simpl.
  split; congruence.
Qed.

Lemma find_min_max_from_end_witness :
  exists v,
    call recursion_limit arr12 (-5) (-2) = inr v /\
    call recursion_limit arr12 (-5 + Z.of_nat (length arr12))
         (-2 + Z.of_nat (length arr12)) = inr v.
Proof.
  apply (find_min_max_from_end arr12 (-5) (-2) recursion_limit).
  - simpl; lia.
  - lia.
  - lia.
  - apply Nat.leb_le. vm_compute. reflexivity.
Defined.

(** ** Every element is subscripted, exactly twice *)

Lemma find_min_max_reads_twice (arr : list Z) (low high : Z) (fuel : nat)
      (t : trace) :
  readable_range arr low high ->
  (depth_needed low high <= fuel)%nat ->
  exists v t' r,
    find_min_max fuel arr low high t = inr (v, t') /\
    reads t' = reads t ++ r /\
    Z.of_nat (length r) = 2 * range_size low high /\
    forall i, count_occ Z.eq_dec r i
              = if (low <=? i) && (i <=? high) then 2%nat else 0%nat.
Proof.
  intros Hr Hd.
  apply depth_needed_le in Hd as [Hf Hn]; [|unfold readable_range in Hr; lia].
  destruct (find_min_max_run_ind arr
              (fun low high t _ t' =>
                 exists r, reads t' = reads t ++ r /\
                   Z.of_nat (length r) = 2 * range_size low high /\
                   forall i, count_occ Z.eq_dec r i
                             = if (low <=? i) && (i <=? high)
                               then 2%nat else 0%nat))
    with (fuel := fuel) (low := low) (high := high) (t := t)
    as (v & t' & E & r & Er & Hlen & Hc); try assumption.
  - intros l x s _. exists [l; l].
    split; [simpl; now rewrite <- app_assoc|].
    split; [unfold range_size; cbn [length]; lia|].
    intros i. simpl.
    destruct (Z.eq_dec l i) as [->|Hne].
    + now rewrite Z.leb_refl.
    + destruct (Z.leb_spec l i), (Z.leb_spec i l); simpl; try reflexivity.
      lia.
  - intros l a b s _ _. unfold two_trace.
    assert (G : forall i,
              ((if Z.eq_dec l i then 1 else 0)
               + (if Z.eq_dec (l + 1) i then 1 else 0))%nat
              = if (l <=? i) && (i <=? l + 1) then 1%nat else 0%nat).
    { intros i.
      destruct (Z.eq_dec l i), (Z.eq_dec (l + 1) i),
        (Z.leb_spec l i), (Z.leb_spec i (l + 1)); simpl; lia. }
    destruct (a <? b).
    + exists [l; l + 1; l; l + 1].
      split; [simpl; now rewrite <- !app_assoc|].
      split; [unfold range_size; cbn [length]; lia|].
      intros i. specialize (G i). simpl.
      destruct (Z.eq_dec l i), (Z.eq_dec (l + 1) i),
        ((l <=? i) && (i <=? l + 1))%bool; simpl in *; lia.
    + exists [l; l + 1; l + 1; l].
      split; [simpl; now rewrite <- !app_assoc|].
      split; [unfold range_size; cbn [length]; lia|].
      intros i. specialize (G i). simpl.
      destruct (Z.eq_dec l i), (Z.eq_dec (l + 1) i),
        ((l <=? i) && (i <=? l + 1))%bool; simpl in *; lia.
  - intros l h s s1 s2 _ _ _ _ Hlt (r1 & E1 & L1 & C1) (r2 & E2 & L2 & C2).
    exists (r1 ++ r2).
    split; [simpl; now rewrite E2, E1, app_assoc|].
    split; [rewrite length_app; unfold range_size in *; lia|].
    intros i. rewrite count_occ_app, C1, C2.
    pose proof (mid_of_spec l h) as Hm.
    destruct (Z.leb_spec l i), (Z.leb_spec i (mid_of l h)),
      (Z.leb_spec (mid_of l h + 1) i), (Z.leb_spec i h); simpl; lia.
  - now exists v, t', r.
Qed.

(** X5.  On a readable range of [n] elements the call subscripts each index
    of [low .. high] exactly twice and no other index at all: [2n]
    subscripts in total, so no element of the range goes unexamined. *)
Theorem find_min_max_reads_each_twice
        (arr : list Z) (low high : Z) (fuel : nat) :
  readable_range arr low high ->
  (depth_needed low high <= fuel)%nat ->
  exists v t',
    run fuel arr low high = inr (v, t') /\
    (forall i, low <= i <= high -> count_occ Z.eq_dec (reads t') i = 2%nat) /\
    (forall i, ~ low <= i <= high -> ~ In i (reads t')) /\
    Z.of_nat (length (reads t')) = 2 * range_size low high.
Proof.
  intros Hr Hd.
  destruct (find_min_max_reads_twice arr low high fuel t0 Hr Hd)
    as (v & t' & r & E & Er & Hlen & Hc).
  simpl in Er. subst r.
  exists v, t'. split; [exact E|]. split; [|split].
  - intros i Hi. rewrite Hc.
    destruct (Z.leb_spec low i), (Z.leb_spec i high); simpl; lia.
  - intros i Hi Hin.
    apply (count_occ_In Z.eq_dec) in Hin. rewrite Hc in Hin.
    destruct (Z.leb_spec low i), (Z.leb_spec i high); simpl in Hin; lia.
  - exact Hlen.
Qed.

Lemma find_min_max_reads_each_twice_witness :
  exists v t',
    run recursion_limit arr12 (-3) 4 = inr (v, t') /\
    (forall i, -3 <= i <= 4 -> count_occ Z.eq_dec (reads t') i = 2%nat) /\
    (forall i, ~ -3 <= i <= 4 -> ~ In i (reads t')) /\
    Z.of_nat (length (reads t')) = 2 * range_size (-3) 4.
Proof.
  apply (find_min_max_reads_each_twice arr12 (-3) 4 recursion_limit).
  - unfold readable_range; simpl; lia.
  - apply Nat.leb_le. vm_compute. reflexivity.
Defined.

(** ** The exact number of comparisons *)

Lemma pow2_ge_1 (j : Z) : 0 <= j -> 1 <= 2 ^ j.
Proof. intros Hj. assert (0 < 2 ^ j) by (apply Z.pow_pos_nonneg; lia). lia. Qed.

Lemma exact_count_one : exact_count 1 0.
Proof.
  split; [reflexivity|]. intros j Hj Hn.
  pose proof (pow2_ge_1 j Hj). lia.
Qed.

Lemma exact_count_two : exact_count 2 1.
Proof.
  split; [lia|]. intros j Hj Hn.
  pose proof (pow2_ge_1 j Hj). lia.
Qed.

Lemma exact_count_combine (a b ca cb : Z) :
  1 <= b -> b <= a <= b + 1 -> 3 <= a + b ->
  exact_count a ca -> exact_count b cb ->
  exact_count (a + b) (ca + cb + 2).
Proof.
  intros Hb Hab Hn [Oa Pa] [Ob Pb]. split; [lia|].
  intros j Hj Hp.
  destruct (Z.eq_dec j 0) as [->|Hj0].
  - change (2 ^ 0) with 1 in *.
    assert (Ha2 : a = 2) by lia.
    specialize (Pa 0 ltac:(lia)). change (2 ^ 0) with 1 in Pa.
    specialize (Pa ltac:(lia)).
    destruct (Z.eq_dec b 1) as [Hb1|Hb1].
    + specialize (Ob Hb1). lia.
    + specialize (Pb 0 ltac:(lia)). change (2 ^ 0) with 1 in Pb.
      specialize (Pb ltac:(lia)). lia.
  - assert (Eq : 2 ^ j = 2 * 2 ^ (j - 1)).
    { replace j with (j - 1 + 1) at 1 by lia. apply pow2_plus1. lia. }
    pose proof (pow2_ge_1 (j - 1) ltac:(lia)) as Hq.
    specialize (Pa (j - 1) ltac:(lia) ltac:(lia)).
    specialize (Pb (j - 1) ltac:(lia) ltac:(lia)).
    lia.
Qed.

Lemma exact_count_cost (n c : Z) :
  1 <= n -> exact_count n c -> c = cost n.
Proof.
  intros Hn [O P]. unfold cost.
  destruct (Z.leb_spec n 1) as [H1|H1]; [apply O; lia|].
  assert (Hk : 1 <= Z.log2 n).
  { change 1 with (Z.log2 2). apply Z.log2_le_mono. lia. }
  destruct (Z.log2_spec n ltac:(lia)) as [Hlo Hhi].
  assert (E1 : 2 ^ Z.log2 n = 2 * 2 ^ (Z.log2 n - 1)).
  { replace (Z.log2 n) with (Z.log2 n - 1 + 1) at 1 by lia.
    apply pow2_plus1. lia. }
  assert (E2 : 2 ^ Z.succ (Z.log2 n) = 2 * 2 ^ Z.log2 n)
    by (apply Z.pow_succ_r; lia).
  cbv zeta. apply P; lia.
Qed.

Lemma find_min_max_exact_count (arr : list Z) (low high : Z) (fuel : nat)
      (t : trace) :
  readable_range arr low high ->
  (depth_needed low high <= fuel)%nat ->
  exists v t' c,
    find_min_max fuel arr low high t = inr (v, t') /\
    cmps t' = (cmps t + c)%nat /\
    exact_count (range_size low high) (Z.of_nat c).
Proof.
  intros Hr Hd.
  apply depth_needed_le in Hd as [Hf Hn]; [|unfold readable_range in Hr; lia].
  destruct (find_min_max_run_ind arr
              (fun low high t _ t' =>
                 exists c, cmps t' = (cmps t + c)%nat /\
                           exact_count (range_size low high) (Z.of_nat c)))
    with (fuel := fuel) (low := low) (high := high) (t := t)
    as (v & t' & E & c & Hc & Hok); try assumption.
  - intros l x s _. exists 0%nat. split; [simpl; lia|].
    unfold range_size. replace (l - l + 1) with 1 by lia.
    apply exact_count_one.
  - intros l a b s _ _. exists 1%nat.
    split; [unfold two_trace; destruct (a <? b); simpl; lia|].
    unfold range_size. replace (l + 1 - l + 1) with 2 by lia.
    apply exact_count_two.
  - intros l h s s1 s2 _ _ _ _ Hlt (c1 & E1 & O1) (c2 & E2 & O2).
    exists (c1 + c2 + 2)%nat. split; [simpl; lia|].
    pose proof (mid_of_spec l h) as Hm. unfold range_size in *.
    replace (h - l + 1)
      with ((mid_of l h - l + 1) + (h - (mid_of l h + 1) + 1)) by lia.
    replace (Z.of_nat (c1 + c2 + 2)) with (Z.of_nat c1 + Z.of_nat c2 + 2)
      by lia.
    apply exact_count_combine; try assumption; lia.
  - now exists v, t', c.
Qed.

(** X6.  The number of comparisons is a function of the number [n] of
    elements alone, whatever the values and wherever the range lies:
    [cost n], which is [2n - 2 - p] for [2p <= n <= 3p] and [n + 2p - 2]
    for [3p <= n <= 4p], [p] a power of two.  Two calls on ranges of the
    same size therefore compare equally often. *)
Theorem find_min_max_cost
        (arr arr' : list Z) (low high low' high' : Z) (fuel fuel' : nat) :
  readable_range arr low high ->
  (depth_needed low high <= fuel)%nat ->
  readable_range arr' low' high' ->
  (depth_needed low' high' <= fuel')%nat ->
  exists v t1 v' t1',
    run fuel arr low high = inr (v, t1) /\
    run fuel' arr' low' high' = inr (v', t1') /\
    Z.of_nat (cmps t1) = cost (range_size low high) /\
    (range_size low high = range_size low' high' -> cmps t1 = cmps t1').
Proof.
  intros Hr Hd Hr' Hd'.
  destruct (find_min_max_exact_count arr low high fuel t0 Hr Hd)
    as (v & t1 & c & E & Hc & Hx).
  destruct (find_min_max_exact_count arr' low' high' fuel' t0 Hr' Hd')
    as (v' & t1' & c' & E' & Hc' & Hx').
  exists v, t1, v', t1'. simpl in Hc, Hc'. subst c c'.
  assert (H1 : 1 <= range_size low high)
    by (unfold range_size, readable_range in *; lia).
  assert (H1' : 1 <= range_size low' high')
    by (unfold range_size, readable_range in *; lia).
  apply exact_count_cost in Hx; [|assumption].
  apply exact_count_cost in Hx'; [|assumption].
  repeat split; try assumption.
  intros En. rewrite <- En in Hx'. lia.
Qed.

Lemma find_min_max_cost_witness :
  exists v t1 v' t1',
    run recursion_limit arr12 0 11 = inr (v, t1) /\
    run 5 (py_range 100 20) (-14) (-3) = inr (v', t1') /\
    Z.of_nat (cmps t1) = cost (range_size 0 11) /\
    (range_size 0 11 = range_size (-14) (-3) -> cmps t1 = cmps t1').
Proof.
  apply (find_min_max_cost arr12 (py_range 100 20) 0 11 (-14) (-3)
           recursion_limit 5).
  - unfold readable_range; simpl; lia.
  - apply Nat.leb_le. vm_compute. reflexivity.
  - unfold readable_range; simpl; lia.
  - apply Nat.leb_le. vm_compute. reflexivity.
Defined.

(** ** The result as a function of the elements *)

(** The scan's result is determined by which elements occur. *)
Lemma linear_min_max_incl (l l' : list Z) (mn mx mn' mx' : Z) :
  linear_min_max l = Some (mn, mx) ->
  linear_min_max l' = Some (mn', mx') ->
  incl l' l ->
  mn <= mn' /\ mx' <= mx.
Proof.
  intros L L' Hincl.
  destruct (linear_min_max_spec _ _ _ L) as (_ & _ & F).
  destruct (linear_min_max_spec _ _ _ L') as (I1 & I2 & _).
  rewrite Forall_forall in F.
  pose proof (F mn' (Hincl _ I1)) as B1.
  pose proof (F mx' (Hincl _ I2)) as B2.
  simpl in B1, B2. lia.
Qed.

Lemma In_slice (arr : list Z) (low high i x : Z) :
  0 <= low -> low <= i <= high ->
  nth_error arr (Z.to_nat i) = Some x ->
  In x (slice arr low high).
Proof.
  intros H0 Hi Hx. unfold slice.
  apply (nth_error_In _ (Z.to_nat (i - low))).
  rewrite nth_error_firstn.
  replace (Z.to_nat (i - low) <? Z.to_nat (high + 1 - low))%nat with true
    by (symmetry; apply Nat.ltb_lt; lia).
  rewrite nth_error_skipn.
  now replace (Z.to_nat low + Z.to_nat (i - low))%nat with (Z.to_nat i)
    by lia.
Qed.

Lemma slice_incl (arr : list Z) (low high low' high' : Z) :
  0 <= low -> low <= low' -> high' <= high ->
  incl (slice arr low' high') (slice arr low high).
Proof.
  intros H0 H1 H2 x Hx.
  apply slice_In in Hx as (i & Hi & Hnth); [|lia].
  apply (In_slice arr low high i); [assumption | lia | assumption].
Qed.

(** X7.  Rearranging the elements does not change the result: two valid
    ranges, in the same list or not, whose slices are permutations of each
    other return the same pair. *)
Theorem find_min_max_permutation
        (arr arr' : list Z) (low high low' high' : Z) (fuel fuel' : nat) :
  valid_range arr low high ->
  valid_range arr' low' high' ->
  Permutation (slice arr low high) (slice arr' low' high') ->
  (depth_needed low high <= fuel)%nat ->
  (depth_needed low' high' <= fuel')%nat ->
  exists v,
    call fuel arr low high = inr v /\
    call fuel' arr' low' high' = inr v.
Proof.
  intros Hv Hv' Hp Hd Hd'.
  destruct (call_linear arr low high fuel Hv Hd) as ([mn mx] & E & L).
  destruct (call_linear arr' low' high' fuel' Hv' Hd')
    as ([mn' mx'] & E' & L').
  exists (mn, mx). split; [exact E|]. rewrite E'.
  assert (I1 : incl (slice arr' low' high') (slice arr low high))
    by (intros x Hx; eapply Permutation_in; [symmetry; exact Hp | exact Hx]).
  assert (I2 : incl (slice arr low high) (slice arr' low' high'))
    by (intros x Hx; eapply Permutation_in; [exact Hp | exact Hx]).
  destruct (linear_min_max_incl _ _ _ _ _ _ L L' I1).
  destruct (linear_min_max_incl _ _ _ _ _ _ L' L I2).
  do 2 f_equal; lia.
Qed.

Lemma find_min_max_permutation_witness :
  exists v,
    call recursion_limit [3; 1; 2; 9] 0 2 = inr v /\
    call recursion_limit [7; 2; 3; 1] 1 3 = inr v.
Proof.
  apply (find_min_max_permutation [3; 1; 2; 9] [7; 2; 3; 1] 0 2 1 3
           recursion_limit recursion_limit).
  - unfold valid_range; simpl; lia.
  - unfold valid_range; simpl; lia.
  - change (Permutation [3; 1; 2] [2; 3; 1]).
    apply (Permutation_cons_app [2] [1] 3). apply perm_swap.
  - apply Nat.leb_le. vm_compute. reflexivity.
  - apply Nat.leb_le. vm_compute. reflexivity.
Defined.

(** X8.  Narrowing a valid range can only raise the minimum and lower the
    maximum: for [low <= low' <= high' <= high] the pair of the inner range
    lies between the components of the pair of the outer range. *)
Theorem find_min_max_subrange
        (arr : list Z) (low high low' high' : Z) (fuel : nat) :
  valid_range arr low high ->
  low <= low' -> low' <= high' -> high' <= high ->
  (depth_needed low high <= fuel)%nat ->
  exists mn mx mn' mx',
    call fuel arr low high = inr (mn, mx) /\
    call fuel arr low' high' = inr (mn', mx') /\
    mn <= mn' /\ mn' <= mx' /\ mx' <= mx.
Proof.
  intros Hv H1 H2 H3 Hd.
  assert (Hv' : valid_range arr low' high')
    by (unfold valid_range in *; lia).
  assert (Hd' : (depth_needed low' high' <= fuel)%nat).
  { etransitivity; [apply (depth_needed_sub low high)|exact Hd]; lia. }
  destruct (call_linear arr low high fuel Hv Hd) as ([mn mx] & E & L).
  destruct (call_linear arr low' high' fuel Hv' Hd') as ([mn' mx'] & E' & L').
  exists mn, mx, mn', mx'. split; [exact E|]. split; [exact E'|].
  destruct (linear_min_max_incl _ _ _ _ _ _ L L') as [B1 B2].
  { apply slice_incl; unfold valid_range in Hv; lia. }
  destruct (linear_min_max_spec _ _ _ L') as (I1 & _ & F).
  rewrite Forall_forall in F. specialize (F mn' I1). simpl in F. lia.
Qed.

Lemma find_min_max_subrange_witness :
  exists mn mx mn' mx',
    call recursion_limit arr12 1 9 = inr (mn, mx) /\
    call recursion_limit arr12 3 6 = inr (mn', mx') /\
    mn <= mn' /\ mn' <= mx' /\ mx' <= mx.
Proof.
  apply (find_min_max_subrange arr12 1 9 3 6 recursion_limit).
  - unfold valid_range; simpl; lia.
  - lia.
  - lia.
  - lia.
  - apply Nat.leb_le. vm_compute. reflexivity.
Defined.

(** X9.  On a valid range the two components of the result are equal
    exactly when all elements of the range are equal. *)
Theorem find_min_max_constant_iff
        (arr : list Z) (low high : Z) (fuel : nat) :
  valid_range arr low high ->
  (depth_needed low high <= fuel)%nat ->
  exists mn mx,
    call fuel arr low high = inr (mn, mx) /\
    (mn = mx <->
     forall x y, In x (slice arr low high) -> In y (slice arr low high) ->
                 x = y).
Proof.
  intros Hv Hd.
  destruct (call_linear arr low high fuel Hv Hd) as ([mn mx] & E & L).
  exists mn, mx. split; [exact E|].
  destruct (linear_min_max_spec _ _ _ L) as (I1 & I2 & F).
  rewrite Forall_forall in F. split.
  - intros <- x y Hx Hy.
    pose proof (F x Hx) as Bx. pose proof (F y Hy) as By.
    simpl in Bx, By. lia.
  - intros Hall. now apply Hall.
Qed.

Lemma find_min_max_constant_iff_witness :
  exists mn mx,
    call recursion_limit [4; 4; 4] 0 2 = inr (mn, mx) /\
    (mn = mx <->
     forall x y, In x (slice [4; 4; 4] 0 2) -> In y (slice [4; 4; 4] 0 2) ->
                 x = y).
Proof.
  apply (find_min_max_constant_iff [4; 4; 4] 0 2 recursion_limit).
  - unfold valid_range; simpl; lia.
  - apply Nat.leb_le. vm_compute. reflexivity.
Defined.

(** ** The script's call on the whole list *)

Lemma slice_whole (arr : list Z) :
  slice arr 0 (Z.of_nat (length arr) - 1) = arr.
Proof.
  unfold slice. simpl skipn.
  replace (Z.to_nat (Z.of_nat (length arr) - 1 + 1 - 0)) with (length arr)
    by lia.
  apply firstn_all.
Qed.

(** X10.  The script's call [find_min_max(arr, 0, len(arr) - 1)]: on every
    non-empty list there is a stack depth from which on it returns the least
    and the greatest element of the whole list, the pair the linear scan of
    the list returns; on the empty list the range is [0 .. -1], inverted,
    and it ends in [RecursionError] under every stack depth. *)
Theorem script_call_whole_list (arr : list Z) :
  arr <> [] ->
  (exists mn mx,
     linear_min_max arr = Some (mn, mx) /\
     In mn arr /\ In mx arr /\
     Forall (fun x => mn <= x <= mx) arr /\
     exists d, forall fuel,
       (d <= fuel)%nat -> script_call fuel arr = inr (mn, mx)) /\
  (forall fuel, script_call fuel [] = inl RecursionError).
Proof.
  intros Hne. split.
  - assert (Hv : valid_range arr 0 (Z.of_nat (length arr) - 1)).
    { unfold valid_range. destruct arr; [congruence | simpl length; lia]. }
    destruct (call_linear arr _ _ _ Hv (le_n _)) as ([mn mx] & _ & L).
    exists mn, mx. pose proof L as L0. rewrite slice_whole in L0.
    split; [exact L0|].
    destruct (linear_min_max_spec _ _ _ L0) as (I1 & I2 & F).
    do 3 (split; [assumption|]).
    exists (depth_needed 0 (Z.of_nat (length arr) - 1)). intros fuel Hd.
    destruct (call_linear arr _ _ fuel Hv Hd) as (v & E & L').
    unfold script_call. rewrite E. congruence.
  - intros fuel. unfold script_call. simpl length.
    apply call_inverted. lia.
Qed.

Lemma script_call_whole_list_witness :
  (exists mn mx,
     linear_min_max arr12 = Some (mn, mx) /\
     In mn arr12 /\ In mx arr12 /\
     Forall (fun x => mn <= x <= mx) arr12 /\
     exists d, forall fuel,
       (d <= fuel)%nat -> script_call fuel arr12 = inr (mn, mx)) /\
  (forall fuel, script_call fuel [] = inl RecursionError).
Proof.
  apply (script_call_whole_list arr12).
  discriminate.
Defined.

(** ** Which outcome, by the arguments *)

Lemma readable_range_dec (arr : list Z) (low high : Z) :
  low <= high ->
  readable_range arr low high \/
  (low < - Z.of_nat (length arr) \/ Z.of_nat (length arr) <= high).
Proof. unfold readable_range. lia. Qed.

(** On a readable range every stack of the needed depth or more gives one
    and the same pair, the scan of the selected elements. *)
Lemma call_readable (arr : list Z) (low high : Z) :
  readable_range arr low high ->
  exists v,
    linear_min_max (py_elems arr low high) = Some v /\
    forall fuel, (depth_needed low high <= fuel)%nat ->
                 call fuel arr low high = inr v.
Proof.
  intros Hr.
  destruct (find_min_max_elems arr low high _ t0 Hr (le_n _))
    as (v & t' & _ & L).
  exists v. split; [exact L|]. intros fuel Hd.
  destruct (find_min_max_elems arr low high fuel t0 Hr Hd)
    as (v' & t'' & E & L').
  unfold call, run. rewrite E. simpl. congruence.
Qed.

(** X2.  A pair is returned only on a range that is not inverted and whose
    indices all lie in [-length .. length-1], whatever the stack depth; and
    on every such range there is a depth [d] such that the call returns one
    and the same pair whenever the stack has room for [d] nested calls or
    more, and ends in [RecursionError] whenever it has room for fewer. *)
Theorem find_min_max_returns_iff (arr : list Z) (low high : Z) :
  (forall fuel v,
     call fuel arr low high = inr v -> readable_range arr low high) /\
  (readable_range arr low high ->
   exists d v, forall fuel,
     ((d <= fuel)%nat -> call fuel arr low high = inr v) /\
     ((fuel < d)%nat -> call fuel arr low high = inl RecursionError)).
Proof.
  split.
  - intros fuel v Hv.
    destruct (Z_lt_le_dec high low) as [Hlt|Hle].
    { rewrite (call_inverted arr low high fuel Hlt) in Hv. discriminate. }
    destruct (readable_range_dec arr low high Hle) as [Hr|Hout];
      [assumption|].
    destruct (le_lt_dec (depth_needed low high) fuel) as [Hd|Hd].
    + rewrite (call_unreadable arr low high fuel Hle Hout Hd) in Hv.
      discriminate.
    + rewrite (call_shallow arr low high fuel Hle Hd) in Hv. discriminate.
  - intros Hr. destruct (call_readable arr low high Hr) as (v & _ & Hv).
    exists (depth_needed low high), v. intros fuel. split; intros Hd.
    + now apply Hv.
    + apply call_shallow; [unfold readable_range in Hr; lia | assumption].
Qed.

(** X11.  Which exception is raised is decided by the arguments, the stack
    depth only delaying it.  [RecursionError] is raised under every stack
    depth exactly when the range is inverted.  [IndexError] is raised under
    some stack depth exactly when the range is not inverted and one of its
    indices lies outside [-length .. length-1]; there is then a depth [d]
    such that it is raised whenever the stack has room for [d] nested calls
    or more, and [RecursionError] whenever it has room for fewer. *)
Theorem find_min_max_which_exception (arr : list Z) (low high : Z) :
  ((forall fuel, call fuel arr low high = inl RecursionError) <->
   high < low) /\
  ((exists fuel, call fuel arr low high = inl IndexError) <->
   low <= high /\
   (low < - Z.of_nat (length arr) \/ Z.of_nat (length arr) <= high)) /\
  ((exists fuel, call fuel arr low high = inl IndexError) ->
   exists d, forall fuel,
     ((d <= fuel)%nat -> call fuel arr low high = inl IndexError) /\
     ((fuel < d)%nat -> call fuel arr low high = inl RecursionError)).
Proof.
  assert (Hidx : (exists fuel, call fuel arr low high = inl IndexError) ->
            low <= high /\
            (low < - Z.of_nat (length arr) \/
             Z.of_nat (length arr) <= high)).
  { intros [fuel Hf].
    destruct (Z_lt_le_dec high low) as [Hlt|Hle].
    { rewrite (call_inverted arr low high fuel Hlt) in Hf. discriminate. }
    split; [assumption|].
    destruct (readable_range_dec arr low high Hle) as [Hr|Hout];
      [|assumption].
    destruct (call_readable arr low high Hr) as (v & _ & Hv).
    destruct (le_lt_dec (depth_needed low high) fuel) as [Hd|Hd].
    - rewrite (Hv fuel Hd) in Hf. discriminate.
    - rewrite (call_shallow arr low high fuel Hle Hd) in Hf. discriminate. }
  split; [|split].
  - split.
    + intros Hall.
      destruct (Z_lt_le_dec high low) as [Hlt|Hle]; [assumption|].
      specialize (Hall (depth_needed low high)).
      destruct (readable_range_dec arr low high Hle) as [Hr|Hout].
      * destruct (call_readable arr low high Hr) as (v & _ & Hv).
        rewrite (Hv _ (le_n _)) in Hall. discriminate.
      * rewrite (call_unreadable arr low high _ Hle Hout (le_n _)) in Hall.
        discriminate.
    + intros Hlt fuel. now apply call_inverted.
  - split; [exact Hidx|].
    intros [Hle Hout]. exists (depth_needed low high).
    now apply call_unreadable.
  - intros Hex. destruct (Hidx Hex) as [Hle Hout].
    exists (depth_needed low high). intros fuel. split; intros Hd.
    + now apply call_unreadable.
    + now apply call_shallow.
Qed.

(** ** Merging adjacent ranges *)

(** X12.  The result on a valid range is the combination of the results on
    its two parts for every split point [k], [low <= k < high], not only
    for the midpoint the source uses: the smaller of the two minima and the
    larger of the two maxima. *)
Theorem find_min_max_any_split
        (arr : list Z) (low k high : Z) (fuel : nat) :
  valid_range arr low high ->
  low <= k -> k < high ->
  (depth_needed low high <= fuel)%nat ->
  exists lmn lmx rmn rmx,
    call fuel arr low k = inr (lmn, lmx) /\
    call fuel arr (k + 1) high = inr (rmn, rmx) /\
    call fuel arr low high = inr (Z.min lmn rmn, Z.max lmx rmx).
Proof.
  intros Hv H1 H2 Hd.
  assert (Hl : valid_range arr low k) by (unfold valid_range in *; lia).
  assert (Hr : valid_range arr (k + 1) high)
    by (unfold valid_range in *; lia).
  assert (Dl : (depth_needed low k <= fuel)%nat).
  { etransitivity; [apply (depth_needed_sub low high)|exact Hd]; lia. }
  assert (Dr : (depth_needed (k + 1) high <= fuel)%nat).
  { etransitivity; [apply (depth_needed_sub low high)|exact Hd]; lia. }
  destruct (call_linear arr _ _ fuel Hl Dl) as ([lmn lmx] & El & Ll).
  destruct (call_linear arr _ _ fuel Hr Dr) as ([rmn rmx] & Er & Lr).
  destruct (call_linear arr _ _ fuel Hv Hd) as (v & E & L).
  exists lmn, lmx, rmn, rmx. split; [exact El|]. split; [exact Er|].
  rewrite E. f_equal.
  rewrite (slice_app arr low k high) in L
    by (unfold valid_range in Hv; lia).
  rewrite (linear_min_max_app _ _ _ _ _ _ Ll Lr) in L. congruence.
Qed.

Lemma find_min_max_any_split_witness :
  exists lmn lmx rmn rmx,
    call recursion_limit arr12 0 1 = inr (lmn, lmx) /\
    call recursion_limit arr12 (1 + 1) 11 = inr (rmn, rmx) /\
    call recursion_limit arr12 0 11 = inr (Z.min lmn rmn, Z.max lmx rmx).
Proof.
  apply (find_min_max_any_split arr12 0 1 11 recursion_limit).
  - unfold valid_range; simpl; lia.
  - lia.
  - lia.
  - apply Nat.leb_le. vm_compute. reflexivity.
Defined.
